(** * ChatScreen: the one-to-one chat screen of [src/screens/chat/ChatScreen.js]

    A shallow embedding of the screen's state, of its two socket handlers
    ([handleReceiveMessage], [handleMessageStatusUpdated]), of the history
    load ([fetchMessages]) and of [sendMessage], followed by the properties
    the specification states about them.

    The component keeps four pieces of React state and talks to the outside
    through [socket.emit], [console.error] and the list view.  Handlers are
    embedded as actions of a small monad that threads the state, collects
    the effects in program order and carries JavaScript's exceptions.

    [loadUserData] and the rendering decisions ([renderMessage],
    [renderInputBar], the spinner) are embedded as well; styles, icons and
    navigation are left out. *)

From Stdlib Require Import ZArith NArith String Ascii List Sorted Lia.
From stdpp Require Import base list strings.

Local Open Scope string_scope.
Local Open Scope list_scope.

(** ** JavaScript strings that get trimmed *)

(** The text of the input field is a JavaScript string: a sequence of UTF-16
    code units.  Identifiers and statuses are only ever compared with [===],
    so they are kept as [string]. *)
Abbreviation JSString := (list N).

(** The code units of an ASCII literal. *)
Definition js (s : string) : JSString :=
  map N_of_ascii (list_ascii_of_string s).

Module JS.

(** ECMAScript [WhiteSpace]: TAB, VT, FF, ZWNBSP and the Unicode
    space separators. *)
Definition isWhiteSpace (c : N) : bool :=
  (c =? 0x0009)%N || (c =? 0x000B)%N || (c =? 0x000C)%N || (c =? 0xFEFF)%N
  || (c =? 0x0020)%N || (c =? 0x00A0)%N || (c =? 0x1680)%N
  || ((0x2000 <=? c)%N && (c <=? 0x200A)%N)
  || (c =? 0x202F)%N || (c =? 0x205F)%N || (c =? 0x3000)%N.

(** ECMAScript [LineTerminator]: LF, CR, LS, PS. *)
Definition isLineTerminator (c : N) : bool :=
  (c =? 0x000A)%N || (c =? 0x000D)%N || (c =? 0x2028)%N || (c =? 0x2029)%N.

(** What [String.prototype.trim] strips at both ends. *)
Definition isStripped (c : N) : bool := isWhiteSpace c || isLineTerminator c.

Fixpoint trimStart (s : JSString) : JSString :=
  match s with
  | [] => []
  | c :: s' => if isStripped c then trimStart s' else s
  end.

Definition trimEnd (s : JSString) : JSString := reverse (trimStart (reverse s)).

(** [String.prototype.trim] *)
Definition trim (s : JSString) : JSString := trimEnd (trimStart s).

End JS.

(** ** Messages *)

(** [message.senderId] and [message.receiverId] are populated user
    documents; the screen reads their [_id] only. *)
Module User.
Record t := mk { _id : string }.
End User.

Module Message.
Record t := mk {
  _id : string;
  senderId : User.t;
  receiverId : User.t;
  text : JSString;
  (** the instant [new Date(item.createdAt)] denotes, in milliseconds *)
  createdAt : Z;
  status : string
}.

(** [{ ...msg, status }] *)
Definition with_status (msg : t) (status : string) : t :=
  mk (_id msg) (senderId msg) (receiverId msg) (text msg) (createdAt msg) status.
End Message.

#[global] Instance user_eq_dec : EqDecision User.t.
Proof. solve_decision. Defined.

#[global] Instance message_eq_dec : EqDecision Message.t.
Proof. solve_decision. Defined.

(** ** The screen's state *)

Module Screen.
(** [useState]: [messages], [inputMessage], [userId], [isLoading]. *)
Record t := mk {
  messages : list Message.t;
  inputMessage : JSString;
  userId : string;
  isLoading : bool
}.

(** The state of a freshly mounted screen. *)
Definition initial : t := mk [] [] "" true.
End Screen.

(** ** Effects *)

(** A thrown or rejected value. *)
Inductive Error :=
  | HttpError (status : Z)      (* new Error(`HTTP error! status: ${response.status}`) *)
  | Rejection (reason : string) (* the reason an awaited promise rejected with *).

(** The second argument of [socket.emit]. *)
Inductive Payload :=
  | StatusUpdate (messageId : string) (status : string)
  | MessageData (senderId : string) (receiverId : string) (text : JSString).

Inductive Effect :=
  | SocketEmit (event : string) (payload : Payload)
  | ConsoleError (label : string) (error : Error)
  | ScrollToBottom.

(** How a piece of code ends. *)
Inductive Completion (A : Type) :=
  | Normal (a : A)
  | Throw (e : Error).
Arguments Normal {A} a.
Arguments Throw {A} e.

(** An action runs from a state to a completion, the state it leaves and
    the effects it performed, oldest first. *)
Definition Action (A : Type) : Type :=
  Screen.t -> Completion A * Screen.t * list Effect.

Definition ret {A} (a : A) : Action A := fun s => (Normal a, s, []).

Definition bind {A B} (m : Action A) (k : A -> Action B) : Action B :=
  fun s =>
    match m s with
    | (Normal a, s1, out1) =>
        let '(r, s2, out2) := k a s1 in (r, s2, out1 ++ out2)
    | (Throw e, s1, out1) => (Throw e, s1, out1)
    end.

Definition throw {A} (e : Error) : Action A := fun s => (Throw e, s, []).

(** [try { body } catch (error) { handler }] *)
Definition try_catch {A} (body : Action A) (handler : Error -> Action A) : Action A :=
  fun s =>
    match body s with
    | (Normal a, s1, out1) => (Normal a, s1, out1)
    | (Throw e, s1, out1) =>
        let '(r, s2, out2) := handler e s1 in (r, s2, out1 ++ out2)
    end.

(** [await p], for a promise that settles with [r]. *)
Definition await {A} (r : Completion A) : Action A := fun s => (r, s, []).

Declare Scope action_scope.
Delimit Scope action_scope with action.
Notation "x <- m ;; k" := (bind m (fun x => k))
  (at level 100, m at next level, right associativity) : action_scope.
Notation "m ;; k" := (bind m (fun _ => k))
  (at level 100, right associativity) : action_scope.
Local Open Scope action_scope.

Definition completion {A} (r : Completion A * Screen.t * list Effect) : Completion A :=
  r.1.1.
Definition state {A} (r : Completion A * Screen.t * list Effect) : Screen.t :=
  r.1.2.
Definition effects {A} (r : Completion A * Screen.t * list Effect) : list Effect :=
  r.2.

(** The [useState] setters. *)
Definition setMessages (update : list Message.t -> list Message.t) : Action unit :=
  fun s => (Normal tt,
            Screen.mk (update (Screen.messages s)) (Screen.inputMessage s)
                      (Screen.userId s) (Screen.isLoading s), []).

Definition setInputMessage (v : JSString) : Action unit :=
  fun s => (Normal tt,
            Screen.mk (Screen.messages s) v (Screen.userId s) (Screen.isLoading s), []).

Definition setUserId (v : string) : Action unit :=
  fun s => (Normal tt,
            Screen.mk (Screen.messages s) (Screen.inputMessage s) v (Screen.isLoading s), []).

Definition setIsLoading (v : bool) : Action unit :=
  fun s => (Normal tt,
            Screen.mk (Screen.messages s) (Screen.inputMessage s) (Screen.userId s) v, []).

Definition perform (e : Effect) : Action unit := fun s => (Normal tt, s, [e]).

Definition socket_emit (event : string) (payload : Payload) : Action unit :=
  perform (SocketEmit event payload).

Definition console_error (label : string) (error : Error) : Action unit :=
  perform (ConsoleError label error).

(** A call of [scrollToBottom()].  Whether the list view then moves depends
    on [flatListRef] and on the rendered list; the call touches neither the
    state nor the socket. *)
Definition scrollToBottom : Action unit := perform ScrollToBottom.

(** [array.forEach(callback)] *)
Fixpoint forEach {A} (l : list A) (callback : A -> Action unit) : Action unit :=
  match l with
  | [] => ret tt
  | x :: l' => callback x ;; forEach l' callback
  end.

(** ** The outside world of the history load *)

Module Response.
(** What [fetchMessages] reads of a [fetch] response: [ok], [status] and
    how [response.json()] settles. *)
Record t := mk {
  ok : bool;
  status : Z;
  json : Completion (list Message.t)
}.
End Response.

Module Http.
(** How the awaited calls of [fetchMessages] settle: [getToken()], and
    [fetch(url, { headers: { Authorization } })] as a function of the url
    and of the header. *)
Record t := mk {
  getToken : Completion string;
  fetch : string -> string -> Completion Response.t
}.
End Http.

(** ** The handlers *)

Section Handlers.

(** [API_ENDPOINTS.messages], from [apiConfig]. *)
Variable messagesEndpoint : string.

(** [route.params.receiverId]: the peer of the open conversation. *)
Variable receiverId : string.

(** [handleReceiveMessage], as created by the effect that captured [userId]. *)
Definition handleReceiveMessage (userId : string) (message : Message.t) : Action unit :=
  if bool_decide (User._id (Message.senderId message) = receiverId)
     || bool_decide (User._id (Message.receiverId message) = receiverId)
  then
    setMessages (fun prevMessages => prevMessages ++ [message]) ;;
    (if bool_decide (User._id (Message.receiverId message) = userId)
     then socket_emit "updateMessageStatus" (StatusUpdate (Message._id message) "delivered")
     else ret tt) ;;
    scrollToBottom
  else ret tt.

(** [handleMessageStatusUpdated] *)
Definition handleMessageStatusUpdated (messageId status : string) : Action unit :=
  setMessages (fun prevMessages =>
    (fun msg =>
       if bool_decide (Message._id msg = messageId)
       then Message.with_status msg status
       else msg) <$> prevMessages).

(** The callback of [data.forEach] in [fetchMessages]: mark as read. *)
Definition markAsRead (senderId : string) (message : Message.t) : Action unit :=
  if bool_decide (User._id (Message.receiverId message) = senderId)
     && negb (bool_decide (Message.status message = "read"))
  then socket_emit "updateMessageStatus" (StatusUpdate (Message._id message) "read")
  else ret tt.

(** [fetchMessages], from the first [await] on: the promises have settled
    as [http] says. *)
Definition fetchMessages_settled (http : Http.t) (senderId : string) : Action unit :=
  token <- await (Http.getToken http) ;;
  response <- await (Http.fetch http
                       (messagesEndpoint +:+ "/" +:+ senderId +:+ "/" +:+ receiverId)
                       ("Bearer " +:+ token)) ;;
  (if negb (Response.ok response)
   then throw (HttpError (Response.status response))
   else ret tt) ;;
  data <- await (Response.json response) ;;
  setMessages (fun _ => data) ;;
  setIsLoading false ;;
  forEach data (markAsRead senderId) ;;
  scrollToBottom.

Definition fetchMessages_catch (error : Error) : Action unit :=
  console_error "Error fetching messages:" error ;;
  setIsLoading false.

(** [fetchMessages] when nothing else runs while it is suspended. *)
Definition fetchMessages (http : Http.t) (senderId : string) : Action unit :=
  try_catch
    (setIsLoading true ;; fetchMessages_settled http senderId)
    fetchMessages_catch.

(** The two halves of [fetchMessages] around its suspension: the part that
    runs at the call, and the part that runs once the awaited promises have
    settled.  Socket handlers may run in between. *)
Definition fetchMessages_call : Action unit :=
  try_catch (setIsLoading true) fetchMessages_catch.

Definition fetchMessages_resume (http : Http.t) (senderId : string) : Action unit :=
  try_catch (fetchMessages_settled http senderId) fetchMessages_catch.

(** [sendMessage], as memoised over [inputMessage], [userId], [receiverId]. *)
Definition sendMessage (inputMessage : JSString) (userId : string) : Action unit :=
  if bool_decide (JS.trim inputMessage = [])
  then ret tt
  else
    let messageData := MessageData userId receiverId (JS.trim inputMessage) in
    socket_emit "sendMessage" messageData ;;
    setInputMessage [].

(** ** The socket's events *)

Inductive SocketEvent :=
  | receiveMessage (message : Message.t)
  | messageStatusUpdated (messageId : string) (status : string).

(** [socket.on('receiveMessage', handleReceiveMessage)] and
    [socket.on('messageStatusUpdated', handleMessageStatusUpdated)]. *)
Definition on_event (userId : string) (ev : SocketEvent) : Action unit :=
  match ev with
  | receiveMessage message => handleReceiveMessage userId message
  | messageStatusUpdated messageId status => handleMessageStatusUpdated messageId status
  end.

(** A history load during which the socket delivers [live], in order,
    before the fetch settles. *)
Definition fetchMessages_with_live
    (http : Http.t) (senderId userId : string) (live : list SocketEvent) : Action unit :=
  fetchMessages_call ;;
  forEach live (on_event userId) ;;
  fetchMessages_resume http senderId.

End Handlers.

(** ** The vocabulary of the specification *)

Module Spec.

(** The status lattice [sent < delivered < read]. *)
Definition rank (status : string) : option nat :=
  if bool_decide (status = "sent") then Some 0
  else if bool_decide (status = "delivered") then Some 1
  else if bool_decide (status = "read") then Some 2
  else None.

(** [a] is strictly below [b] in the lattice. *)
Definition below (a b : string) : Prop :=
  exists m n, rank a = Some m /\ rank b = Some n /\ (m < n)%nat.

(** [advance(current, proposed)]: the maximum under the lattice order. *)
Definition advance (current proposed : string) : string :=
  match rank current, rank proposed with
  | Some m, Some n => if (m <? n)%nat then proposed else current
  | _, _ => current
  end.

(** [compare(a, b)]: creation timestamp ascending, identifier ascending on
    a tie. *)
Definition before (a b : Message.t) : bool :=
  (Message.createdAt a <? Message.createdAt b)%Z
  || ((Message.createdAt a =? Message.createdAt b)%Z
      && String.leb (Message._id a) (Message._id b)).

Definition ordered (timeline : list Message.t) : Prop :=
  Sorted (fun a b => before a b = true) timeline.

(** How many entries of the timeline carry the identifier. *)
Definition entries (id : string) (timeline : list Message.t) : nat :=
  length (filter (fun msg => Message._id msg = id) timeline).

(** The merge policy: [timeline] is the union by identifier of [history]
    and [live]; an identifier in both keeps the higher status and takes
    every other field from the history. *)
Definition merged (history live timeline : list Message.t) : Prop :=
  (forall msg, msg ∈ history ++ live ->
     exists entry, entry ∈ timeline /\ Message._id entry = Message._id msg)
  /\ NoDup (Message._id <$> timeline)
  /\ (forall h l, h ∈ history -> l ∈ live -> Message._id h = Message._id l ->
        Message.with_status h (advance (Message.status h) (Message.status l)) ∈ timeline).

End Spec.

(** ** Sample data *)

Module Sample.

Definition me : string := "u-me".
Definition peer : string := "u-peer".
Definition stranger : string := "u-else".

Definition message (id from to : string) (body : string) (at_ : Z) (status : string)
  : Message.t :=
  Message.mk id (User.mk from) (User.mk to) (js body) at_ status.

(** A screen whose identity is loaded. *)
Definition screen (timeline : list Message.t) : Screen.t :=
  Screen.mk timeline [] me false.

(** A history store that answers with [data]. *)
Definition store (data : list Message.t) : Http.t :=
  Http.mk (Normal "token")
          (fun _ _ => Normal (Response.mk true 200 (Normal data))).

(** A history store that answers with a non-success status. *)
Definition store_refusing (code : Z) : Http.t :=
  Http.mk (Normal "token")
          (fun _ _ => Normal (Response.mk false code (Normal []))).

(** An unreachable history store: [fetch] rejects. *)
Definition store_unreachable : Http.t :=
  Http.mk (Normal "token")
          (fun _ _ => Throw (Rejection "Network request failed")).

End Sample.

(** How the awaited calls of a history load can turn out. *)
Section Outcomes.

Variable messagesEndpoint receiverId : string.
Variable http : Http.t.
Variable senderId : string.

Let url := messagesEndpoint +:+ "/" +:+ senderId +:+ "/" +:+ receiverId.

(** The store answered with a success status and a body that parses to
    [data]. *)
Definition load_succeeds (data : list Message.t) : Prop :=
  exists token response,
    Http.getToken http = Normal token
    /\ Http.fetch http url ("Bearer " +:+ token) = Normal response
    /\ Response.ok response = true
    /\ Response.json response = Normal data.

(** The load failed with [error]: no token, a transport error, a
    non-success response, or a body that does not parse. *)
Inductive load_fails : Error -> Prop :=
  | token_error error :
      Http.getToken http = Throw error ->
      load_fails error
  | transport_error token error :
      Http.getToken http = Normal token ->
      Http.fetch http url ("Bearer " +:+ token) = Throw error ->
      load_fails error
  | server_error token response :
      Http.getToken http = Normal token ->
      Http.fetch http url ("Bearer " +:+ token) = Normal response ->
      Response.ok response = false ->
      load_fails (HttpError (Response.status response))
  | body_error token response error :
      Http.getToken http = Normal token ->
      Http.fetch http url ("Bearer " +:+ token) = Normal response ->
      Response.ok response = true ->
      Response.json response = Throw error ->
      load_fails error.

End Outcomes.

(** The message belongs to the conversation with [receiverId]. *)
Definition belongs (receiverId : string) (message : Message.t) : Prop :=
  User._id (Message.senderId message) = receiverId
  \/ User._id (Message.receiverId message) = receiverId.

(** The lattice rule of the specification, read on the handler: every
    entry with the identifier ends with the maximum of its status and the
    proposed one. *)
Definition status_advances (messageId proposed : string) (s : Screen.t) : Prop :=
  forall i msg,
    Screen.messages s !! i = Some msg ->
    Message._id msg = messageId ->
    Message.status <$>
      (Screen.messages (state (handleMessageStatusUpdated messageId proposed s)) !! i)
    = Some (Spec.advance (Message.status msg) proposed).

(** Every character of [s] is one that [trim] strips. *)
Definition blank (s : JSString) : Prop := Forall (fun c => JS.isStripped c = true) s.

(** Neither end of [s] is a character that [trim] strips. *)
Definition tight (s : JSString) : Prop :=
  (forall c, head s = Some c -> JS.isStripped c = false)
  /\ (forall c, last s = Some c -> JS.isStripped c = false).

(** ** The rest of the component *)

Module Bubble.
(** What [renderMessage] decides about a row: the alignment and colours of
    an own or a received message, the avatar beside it if any, its text
    and the formatted time. *)
Record t := mk {
  own : bool;
  avatar : option string;
  text : JSString;
  time : string
}.
End Bubble.

(** What follows the text field in the input bar. *)
Inductive Trailing :=
  | MediaButtons                     (* mic, image and emoji icons, no handler *)
  | SendButton (onPress : Action unit).

Module InputBar.
Record t := mk {
  value : JSString;
  onChangeText : JSString -> Action unit;
  trailing : Trailing
}.
End InputBar.

Module Header.
Record t := mk {
  avatar : string;
  name : string;
  presence : string
}.
End Header.

(** What the component returns. *)
Inductive View :=
  | LoadingView
  | ChatView (header : Header.t) (rows : list (string * Bubble.t))
             (inputBar : InputBar.t).

Definition placeholder : string := "https://via.placeholder.com/50".

Section Component.

(** [API_ENDPOINTS.messages] and [API_ENDPOINTS.socketURL], from [apiConfig]. *)
Variable messagesEndpoint socketURL : string.

(** [route.params]; the avatar may be missing. *)
Variable receiverId receiverName : string.
Variable receiverAvatar : option string.

(** [format(date, pattern)] of date-fns. *)
Variable format : Z -> string -> string.

(** [loadUserData], with [AsyncStorage.getItem] settling as [getItem] says
    and nothing else running until the load it starts has settled.  The
    call of [fetchMessages] is not awaited; [fetchMessages] catches
    whatever it throws, so nothing of it reaches this [catch]. *)
Definition loadUserData
    (getItem : string -> Completion (option string)) (http : Http.t) : Action unit :=
  try_catch
    (storedUserId <- await (getItem "userID") ;;
     match storedUserId with
     | Some id =>
         if negb (bool_decide (id = ""))
         then setUserId id ;; fetchMessages messagesEndpoint receiverId http id
         else ret tt
     | None => ret tt
     end)
    (fun error => console_error "Error loading user data:" error).

(** [renderMessage], for the [userId] of the render. *)
Definition renderMessage (userId : string) (item : Message.t) : Bubble.t :=
  let isOwnMessage := bool_decide (User._id (Message.senderId item) = userId) in
  let formattedDate := format (Message.createdAt item) "HH:mm" in
  let avatarUrl :=
    if isOwnMessage then placeholder
    else match receiverAvatar with
         | Some path =>
             if negb (bool_decide (path = "")) then socketURL +:+ path else placeholder
         | None => placeholder
         end in
  Bubble.mk isOwnMessage
            (if negb isOwnMessage then Some avatarUrl else None)
            (Message.text item)
            formattedDate.

(** [renderInputBar] *)
Definition renderInputBar (inputMessage : JSString) (userId : string) : InputBar.t :=
  InputBar.mk inputMessage setInputMessage
    (if bool_decide (JS.trim inputMessage = [])
     then MediaButtons
     else SendButton (sendMessage receiverId inputMessage userId)).

(** The component's return value for a state: the spinner while loading,
    otherwise the header, one row per message keyed by
    [item._id.toString()], and the input bar. *)
Definition render (s : Screen.t) : View :=
  if Screen.isLoading s then LoadingView
  else
    ChatView
      (Header.mk
         (match receiverAvatar with
          | Some path =>
              if negb (bool_decide (path = "")) then socketURL +:+ path else placeholder
          | None => placeholder
          end)
         receiverName "Online")
      ((fun item => (Message._id item, renderMessage (Screen.userId s) item))
       <$> Screen.messages s)
      (renderInputBar (Screen.inputMessage s) (Screen.userId s)).

End Component.

(** An effect is a call of [socket.emit]. *)
Definition is_emit (e : Effect) : bool :=
  match e with SocketEmit _ _ => true | _ => false end.

#[global] Instance error_eq_dec : EqDecision Error.
Proof. solve_decision. Defined.

#[global] Instance payload_eq_dec : EqDecision Payload.
Proof. solve_decision. Defined.

#[global] Instance effect_eq_dec : EqDecision Effect.
Proof. solve_decision. Defined.



(** The failure of a load reaches the consumer of the screen as a signal of
    its own: what the consumer holds after the failed load, the completion
    and the state, differs from what it holds after any load that
    succeeds in its place. *)
Definition failure_is_signalled
    (messagesEndpoint receiverId : string) (failing : Http.t)
    (senderId userId : string) (live : list SocketEvent) (s : Screen.t) : Prop :=
  forall succeeding data,
    load_succeeds messagesEndpoint receiverId succeeding senderId data ->
    let failed :=
      fetchMessages_with_live messagesEndpoint receiverId failing senderId
        userId live s in
    let loaded :=
      fetchMessages_with_live messagesEndpoint receiverId succeeding senderId
        userId live s in
    (completion failed, state failed) <> (completion loaded, state loaded).

(** [loadUserData] up to the point where it resolves itself: the call of
    [fetchMessages] is not awaited, so of [fetchMessages] only the part
    before its first [await] has run by then. *)
Definition loadUserData_call
    (getItem : string -> Completion (option string)) : Action unit :=
  try_catch
    (storedUserId <- await (getItem "userID") ;;
     match storedUserId with
     | Some id =>
         if negb (bool_decide (id = ""))
         then setUserId id ;; fetchMessages_call
         else ret tt
     | None => ret tt
     end)
    (fun error => console_error "Error loading user data:" error).

(** * Properties *)

(** ** Running the actions *)

Lemma bind_run {A B} (m : Action A) (k : A -> Action B) s a s1 out1 :
  m s = (Normal a, s1, out1) ->
  bind m k s = (completion (k a s1), state (k a s1), out1 ++ effects (k a s1)).
Proof.
  intros Hm. unfold bind, completion, state, effects. rewrite Hm.
  destruct (k a s1) as [[r s2] out2]. reflexivity.
Qed.

Lemma bind_throw {A B} (m : Action A) (k : A -> Action B) s e s1 out1 :
  m s = (Throw e, s1, out1) -> bind m k s = (Throw e, s1, out1).
Proof. intros Hm. unfold bind. rewrite Hm. reflexivity. Qed.

Lemma try_catch_normal {A} (body : Action A) handler s a s1 out1 :
  body s = (Normal a, s1, out1) -> try_catch body handler s = (Normal a, s1, out1).
Proof. intros Hb. unfold try_catch. rewrite Hb. reflexivity. Qed.

Lemma try_catch_throw {A} (body : Action A) handler s e s1 out1 :
  body s = (Throw e, s1, out1) ->
  try_catch body handler s
  = (completion (handler e s1), state (handler e s1), out1 ++ effects (handler e s1)).
Proof.
  intros Hb. unfold try_catch, completion, state, effects. rewrite Hb.
  destruct (handler e s1) as [[r s2] out2]. reflexivity.
Qed.

Lemma belongs_decide receiverId message :
  bool_decide (User._id (Message.senderId message) = receiverId)
  || bool_decide (User._id (Message.receiverId message) = receiverId) = true
  <-> belongs receiverId message.
Proof.
  unfold belongs. rewrite orb_true_iff, !bool_decide_eq_true. reflexivity.
Qed.

(** What one accepted [receiveMessage] does. *)
Lemma handleReceiveMessage_accepted receiverId userId message s :
  belongs receiverId message ->
  handleReceiveMessage receiverId userId message s
  = (Normal tt,
     Screen.mk (Screen.messages s ++ [message]) (Screen.inputMessage s)
               (Screen.userId s) (Screen.isLoading s),
     (if bool_decide (User._id (Message.receiverId message) = userId)
      then [SocketEmit "updateMessageStatus" (StatusUpdate (Message._id message) "delivered")]
      else [])
     ++ [ScrollToBottom]).
Proof.
  intros Hb. apply belongs_decide in Hb. unfold handleReceiveMessage.
  rewrite Hb.
  destruct (bool_decide (User._id (Message.receiverId message) = userId));
    reflexivity.
Qed.

(** What a [receiveMessage] for another conversation does: nothing. *)
Lemma handleReceiveMessage_ignored receiverId userId message s :
  ~ belongs receiverId message ->
  handleReceiveMessage receiverId userId message s = (Normal tt, s, []).
Proof.
  intros Hb. unfold handleReceiveMessage.
  destruct (_ || _) eqn:E; [|reflexivity].
  apply belongs_decide in E. contradiction.
Qed.

Lemma handleMessageStatusUpdated_run messageId status s :
  handleMessageStatusUpdated messageId status s
  = (Normal tt,
     Screen.mk
       ((fun msg => if bool_decide (Message._id msg = messageId)
                    then Message.with_status msg status else msg)
        <$> Screen.messages s)
       (Screen.inputMessage s) (Screen.userId s) (Screen.isLoading s),
     []).
Proof. reflexivity. Qed.

(** The socket handlers never throw and never touch [isLoading],
    [userId] or [inputMessage]. *)
Lemma on_event_returns receiverId userId ev s :
  completion (on_event receiverId userId ev s) = Normal tt
  /\ Screen.isLoading (state (on_event receiverId userId ev s)) = Screen.isLoading s
  /\ Screen.userId (state (on_event receiverId userId ev s)) = Screen.userId s
  /\ Screen.inputMessage (state (on_event receiverId userId ev s)) = Screen.inputMessage s.
Proof.
  destruct ev as [message | messageId status]; cbn [on_event].
  - destruct (decide (belongs receiverId message)) as [Hb | Hb].
    + rewrite handleReceiveMessage_accepted by assumption. auto.
    + rewrite handleReceiveMessage_ignored by assumption. auto.
  - rewrite handleMessageStatusUpdated_run. auto.
Qed.

Lemma forEach_cons {A} (x : A) l callback s :
  forEach (x :: l) callback s = bind (callback x) (fun _ => forEach l callback) s.
Proof. reflexivity. Qed.

Lemma forEach_events_return receiverId userId live s :
  completion (forEach live (on_event receiverId userId) s) = Normal tt
  /\ Screen.isLoading (state (forEach live (on_event receiverId userId) s))
     = Screen.isLoading s.
Proof.
  revert s. induction live as [| ev live IH]; intros s; [auto |].
  rewrite forEach_cons.
  destruct (on_event receiverId userId ev s) as [[r s1] out1] eqn:E.
  pose proof (on_event_returns receiverId userId ev s) as (Hr & Hl & _).
  rewrite E in Hr, Hl. cbn in Hr, Hl. subst r.
  rewrite (bind_run _ _ _ _ _ _ E).
  destruct (IH s1) as [IH1 IH2]. split; [exact IH1 |].
  etransitivity; [exact IH2 | exact Hl].
Qed.

(** ** The history load *)

Lemma markAsRead_run senderId message s :
  markAsRead senderId message s
  = (Normal tt, s, effects (markAsRead senderId message s)).
Proof. unfold markAsRead. destruct (_ && _); reflexivity. Qed.

Lemma markAsRead_effects senderId message s s' :
  effects (markAsRead senderId message s) = effects (markAsRead senderId message s').
Proof. unfold markAsRead. destruct (_ && _); reflexivity. Qed.

Lemma forEach_markAsRead senderId data s :
  forEach data (markAsRead senderId) s
  = (Normal tt, s,
     flat_map (fun message => effects (markAsRead senderId message s)) data).
Proof.
  induction data as [| message data IH]; [reflexivity |].
  rewrite forEach_cons, (bind_run _ _ _ _ _ _ (markAsRead_run senderId message s)).
  rewrite IH. reflexivity.
Qed.

Lemma fetchMessages_call_run s :
  fetchMessages_call s
  = (Normal tt,
     Screen.mk (Screen.messages s) (Screen.inputMessage s) (Screen.userId s) true,
     []).
Proof. reflexivity. Qed.

Section Load.

Variable messagesEndpoint receiverId : string.
Variable http : Http.t.
Variable senderId : string.

Lemma fetchMessages_settled_succeeds data s :
  load_succeeds messagesEndpoint receiverId http senderId data ->
  fetchMessages_settled messagesEndpoint receiverId http senderId s
  = (Normal tt,
     Screen.mk data (Screen.inputMessage s) (Screen.userId s) false,
     flat_map (fun message => effects (markAsRead senderId message s)) data
     ++ [ScrollToBottom]).
Proof.
  intros (token & response & Htoken & Hfetch & Hok & Hjson).
  unfold fetchMessages_settled, bind at 1, await at 1. rewrite Htoken.
  unfold bind at 1, await at 1. rewrite Hfetch.
  unfold bind at 1. rewrite Hok. cbn [negb ret].
  unfold bind at 1, await at 1. rewrite Hjson.
  unfold bind at 1, setMessages at 1. unfold bind at 1, setIsLoading at 1.
  cbn [Screen.messages Screen.inputMessage Screen.userId Screen.isLoading].
  unfold bind at 1. rewrite forEach_markAsRead.
  cbn [scrollToBottom perform app]. f_equal.
  f_equal. apply flat_map_ext. intros message. apply markAsRead_effects.
Qed.

Lemma fetchMessages_settled_fails error s :
  load_fails messagesEndpoint receiverId http senderId error ->
  fetchMessages_settled messagesEndpoint receiverId http senderId s
  = (Throw error, s, []).
Proof.
  intros Hfail. unfold fetchMessages_settled.
  destruct Hfail as [error Htoken | token error Htoken Hfetch
                    | token response Htoken Hfetch Hok
                    | token response error Htoken Hfetch Hok Hjson];
    unfold bind at 1, await at 1; rewrite Htoken; [reflexivity | ..];
    unfold bind at 1, await at 1; rewrite Hfetch; [reflexivity | ..];
    unfold bind at 1; rewrite Hok; [reflexivity |].
  cbn [negb ret]. unfold bind at 1, await at 1. rewrite Hjson. reflexivity.
Qed.

(** A load that succeeds replaces the timeline by the fetched history and
    asks for the read receipts. *)
Lemma fetchMessages_resume_succeeds data s :
  load_succeeds messagesEndpoint receiverId http senderId data ->
  fetchMessages_resume messagesEndpoint receiverId http senderId s
  = (Normal tt,
     Screen.mk data (Screen.inputMessage s) (Screen.userId s) false,
     flat_map (fun message => effects (markAsRead senderId message s)) data
     ++ [ScrollToBottom]).
Proof.
  intros Hok. unfold fetchMessages_resume.
  apply try_catch_normal, fetchMessages_settled_succeeds, Hok.
Qed.

(** A load that fails is caught: it logs and clears [isLoading]. *)
Lemma fetchMessages_resume_fails error s :
  load_fails messagesEndpoint receiverId http senderId error ->
  fetchMessages_resume messagesEndpoint receiverId http senderId s
  = (Normal tt,
     Screen.mk (Screen.messages s) (Screen.inputMessage s) (Screen.userId s) false,
     [ConsoleError "Error fetching messages:" error]).
Proof.
  intros Hfail. unfold fetchMessages_resume.
  rewrite (try_catch_throw _ _ _ _ _ _
             (fetchMessages_settled_fails error s Hfail)).
  reflexivity.
Qed.

(** Suspending at the first [await] splits [fetchMessages] in two. *)
Lemma fetchMessages_split s :
  fetchMessages messagesEndpoint receiverId http senderId s
  = bind fetchMessages_call
      (fun _ => fetchMessages_resume messagesEndpoint receiverId http senderId) s.
Proof.
  unfold fetchMessages, fetchMessages_resume.
  rewrite (bind_run _ _ _ _ _ _ (fetchMessages_call_run s)).
  unfold try_catch at 1, bind at 1, setIsLoading at 1.
  unfold try_catch, completion, state, effects.
  destruct (fetchMessages_settled _ _ _ _ _) as [[[[] | e] s2] out2]; cbn.
  - reflexivity.
  - destruct (fetchMessages_catch e s2) as [[r s3] out3]. reflexivity.
Qed.

End Load.

(** A load during which the socket delivers [live]: the handlers run on the
    state the call left, and the resumption runs on the state they left. *)
Lemma fetchMessages_with_live_run
    messagesEndpoint receiverId http senderId userId live s :
  let before :=
    forEach live (on_event receiverId userId) (state (fetchMessages_call s)) in
  let resumed :=
    fetchMessages_resume messagesEndpoint receiverId http senderId (state before) in
  fetchMessages_with_live messagesEndpoint receiverId http senderId userId live s
  = (completion resumed, state resumed, effects before ++ effects resumed).
Proof.
  intros before resumed. unfold fetchMessages_with_live.
  rewrite (bind_run _ _ _ _ _ _ (fetchMessages_call_run s)).
  destruct (forEach_events_return receiverId userId live
              (state (fetchMessages_call s))) as [Hret _].
  fold before in Hret.
  assert (Hrun : before = (Normal tt, state before, effects before)).
  { destruct before as [[r s1] out1]. cbn in Hret. subst r. reflexivity. }
  change (forEach live (on_event receiverId userId)
            (Screen.mk (Screen.messages s) (Screen.inputMessage s)
                       (Screen.userId s) true)) with before.
  rewrite (bind_run _ _ _ _ _ _ Hrun). reflexivity.
Qed.

(** ** C1: what the history load does to live-received messages *)

(** A message received while the history is loading is gone once the load
    resolves with a history that does not hold it: the result is not the
    union by identifier. *)
Lemma history_load_drops_live_message :
  let history := [Sample.message "m1" Sample.peer Sample.me "hello" 10 "sent"] in
  let live := [receiveMessage
                 (Sample.message "m2" Sample.peer Sample.me "again" 20 "sent")] in
  let before :=
    state (forEach live (on_event Sample.peer Sample.me)
             (state (fetchMessages_call (Sample.screen [])))) in
  let after :=
    state (fetchMessages_with_live "/api/messages" Sample.peer
             (Sample.store history) Sample.me Sample.me live (Sample.screen [])) in
  ~ Spec.merged history (Screen.messages before) (Screen.messages after).
Proof.
  intros history live before after (Hall & _).
  destruct (Hall (Sample.message "m2" Sample.peer Sample.me "again" 20 "sent"))
    as (entry & Hin & Hid).
  - vm_compute. apply list_elem_of_In. right. left. reflexivity.
  - vm_compute in Hin. apply list_elem_of_In in Hin.
    destruct Hin as [<- | []]. vm_compute in Hid. discriminate.
Qed.

(** Nor does a status that a live event raised survive: the entry takes the
    status the history carries. *)
Example history_load_resets_status :
  let history := [Sample.message "m1" Sample.me Sample.peer "hello" 10 "sent"] in
  let live := [receiveMessage (Sample.message "m1" Sample.me Sample.peer "hello" 10 "sent");
               messageStatusUpdated "m1" "read"] in
  Message.status <$>
    Screen.messages
      (state (forEach live (on_event Sample.peer Sample.me)
                (state (fetchMessages_call (Sample.screen [])))))
  = ["read"]
  /\ Message.status <$>
       Screen.messages
         (state (fetchMessages_with_live "/api/messages" Sample.peer
                   (Sample.store history) Sample.me Sample.me live (Sample.screen [])))
     = ["sent"].
Proof. split; reflexivity. Qed.

(** C1 (amended): when the history load resolves after live events have
    been applied, the timeline is exactly the fetched history, entry for
    entry and status included, whatever the live events had put there. *)
Theorem history_load_replaces_timeline
    messagesEndpoint receiverId http senderId userId live data s :
  load_succeeds messagesEndpoint receiverId http senderId data ->
  Screen.messages
    (state (fetchMessages_with_live messagesEndpoint receiverId http senderId
              userId live s))
  = data.
Proof.
  intros Hok. rewrite fetchMessages_with_live_run.
  rewrite (fetchMessages_resume_succeeds _ _ _ _ data _ Hok). reflexivity.
Qed.

Lemma sample_store_succeeds messagesEndpoint receiverId senderId data :
  load_succeeds messagesEndpoint receiverId (Sample.store data) senderId data.
Proof. exists "token", (Response.mk true 200 (Normal data)). auto. Qed.

Lemma history_load_replaces_timeline_witness :
  Screen.messages
    (state (fetchMessages_with_live "/api/messages" Sample.peer
              (Sample.store [Sample.message "m1" Sample.peer Sample.me "hello" 10 "sent"])
              Sample.me Sample.me
              [receiveMessage (Sample.message "m2" Sample.peer Sample.me "again" 20 "sent")]
              (Sample.screen [])))
  = [Sample.message "m1" Sample.peer Sample.me "hello" 10 "sent"].
Proof.
  apply (history_load_replaces_timeline "/api/messages" Sample.peer
           (Sample.store [Sample.message "m1" Sample.peer Sample.me "hello" 10 "sent"])).
  exists "token",
    (Response.mk true 200
       (Normal [Sample.message "m1" Sample.peer Sample.me "hello" 10 "sent"])).
  repeat split; reflexivity.
Defined.

(** ** C2: what a status update does to the status *)

(** A [read] message that receives [sent] becomes [sent]. *)
Lemma status_update_can_lower_status :
  ~ status_advances "m1" "sent"
      (Sample.screen [Sample.message "m1" Sample.me Sample.peer "hello" 10 "read"]).
Proof.
  intros Hadv.
  specialize (Hadv 0%nat
                (Sample.message "m1" Sample.me Sample.peer "hello" 10 "read")
                eq_refl eq_refl).
  vm_compute in Hadv. discriminate.
Qed.

(** C2 (amended): a status update sets the status of every entry with the
    identifier to the proposed status, whatever the current one; that is
    the lattice maximum exactly when the proposed status is not lower. *)
Theorem status_update_sets_proposed messageId proposed s i msg :
  Screen.messages s !! i = Some msg ->
  Message._id msg = messageId ->
  Screen.messages (state (handleMessageStatusUpdated messageId proposed s)) !! i
  = Some (Message.with_status msg proposed)
  /\ Message.status (Message.with_status msg proposed) = proposed
  /\ (Message.status msg = proposed \/ Spec.below (Message.status msg) proposed ->
      proposed = Spec.advance (Message.status msg) proposed).
Proof.
  intros Hi Hid. rewrite handleMessageStatusUpdated_run. cbn [state fst snd Screen.messages].
  split; [| split].
  - rewrite list_lookup_fmap, Hi. cbn. rewrite bool_decide_eq_true_2 by assumption.
    reflexivity.
  - reflexivity.
  - unfold Spec.advance, Spec.below.
    intros [Heq | (m & n & Hm & Hn & Hlt)].
    + rewrite Heq. destruct (Spec.rank proposed); [| reflexivity].
      rewrite Nat.ltb_irrefl. reflexivity.
    + rewrite Hm, Hn. apply Nat.ltb_lt in Hlt. rewrite Hlt. reflexivity.
Qed.

Lemma status_update_sets_proposed_witness :
  let msg := Sample.message "m1" Sample.me Sample.peer "hello" 10 "read" in
  Screen.messages
    (state (handleMessageStatusUpdated "m1" "sent" (Sample.screen [msg]))) !! 0%nat
  = Some (Message.with_status msg "sent")
  /\ Message.status (Message.with_status msg "sent") = "sent"
  /\ (Message.status msg = "sent" \/ Spec.below (Message.status msg) "sent" ->
      "sent" = Spec.advance (Message.status msg) "sent").
Proof.
  intros msg.
  apply (status_update_sets_proposed "m1" "sent" (Sample.screen [msg]) 0%nat msg);
    reflexivity.
Defined.

(** ** C3: receiving the same message twice *)

(** Receiving an accepted message twice leaves two entries with its
    identifier, not one. *)
Lemma receiving_twice_duplicates :
  let message := Sample.message "m1" Sample.peer Sample.me "hello" 10 "sent" in
  ~ Spec.entries "m1"
      (Screen.messages
         (state ((handleReceiveMessage Sample.peer Sample.me message ;;
                  handleReceiveMessage Sample.peer Sample.me message)
                   (Sample.screen []))))
    = 1%nat.
Proof. vm_compute. discriminate. Qed.

Lemma entries_app id l1 l2 :
  Spec.entries id (l1 ++ l2) = (Spec.entries id l1 + Spec.entries id l2)%nat.
Proof. unfold Spec.entries. rewrite filter_app, length_app. reflexivity. Qed.

Lemma entries_same message :
  Spec.entries (Message._id message) [message] = 1%nat.
Proof.
  unfold Spec.entries. rewrite filter_cons_True by reflexivity. reflexivity.
Qed.

(** C3 (amended): the handler appends without looking at the identifier;
    applied twice to an accepted message it leaves two more entries with
    that identifier than the timeline had. *)
Theorem receiving_twice_appends_twice receiverId userId message s :
  belongs receiverId message ->
  let twice :=
    (handleReceiveMessage receiverId userId message ;;
     handleReceiveMessage receiverId userId message) s in
  Screen.messages (state twice) = Screen.messages s ++ [message; message]
  /\ Spec.entries (Message._id message) (Screen.messages (state twice))
     = (Spec.entries (Message._id message) (Screen.messages s) + 2)%nat.
Proof.
  intros Hb twice.
  assert (Hm : Screen.messages (state twice) = Screen.messages s ++ [message; message]).
  { unfold twice.
    rewrite (bind_run _ _ _ _ _ _ (handleReceiveMessage_accepted _ userId _ s Hb)).
    rewrite handleReceiveMessage_accepted by assumption.
    cbn [state fst snd Screen.messages]. rewrite <- app_assoc. reflexivity. }
  split; [exact Hm |].
  rewrite Hm. change [message; message] with ([message] ++ [message]).
  rewrite !entries_app, entries_same. lia.
Qed.

Lemma receiving_twice_appends_twice_witness :
  let message := Sample.message "m1" Sample.peer Sample.me "hello" 10 "sent" in
  let twice :=
    (handleReceiveMessage Sample.peer Sample.me message ;;
     handleReceiveMessage Sample.peer Sample.me message) (Sample.screen []) in
  Screen.messages (state twice) = [message; message]
  /\ Spec.entries "m1" (Screen.messages (state twice)) = 2%nat.
Proof.
  intros message.
  apply (receiving_twice_appends_twice Sample.peer Sample.me message (Sample.screen [])).
  left. reflexivity.
Defined.

(** ** C4: the order of the timeline *)

(** Two accepted messages that arrive newest first stay newest first. *)
Lemma late_arrival_breaks_order :
  let newer := Sample.message "m2" Sample.peer Sample.me "second" 20 "sent" in
  let older := Sample.message "m1" Sample.peer Sample.me "first" 10 "sent" in
  ~ Spec.ordered
      (Screen.messages
         (state (forEach [receiveMessage newer; receiveMessage older]
                   (on_event Sample.peer Sample.me) (Sample.screen [])))).
Proof.
  intros newer older Hsorted. vm_compute in Hsorted.
  apply Sorted_inv in Hsorted as [_ Hhd].
  apply HdRel_inv in Hhd. discriminate.
Qed.

(** Accepted messages are appended in the order they arrive. *)
Lemma forEach_receive_accepted receiverId userId ms s :
  Forall (belongs receiverId) ms ->
  Screen.messages
    (state (forEach (receiveMessage <$> ms) (on_event receiverId userId) s))
  = Screen.messages s ++ ms.
Proof.
  intros Hall. revert s.
  induction Hall as [| message ms Hb _ IH]; intros s.
  - cbn. rewrite app_nil_r. reflexivity.
  - rewrite fmap_cons, forEach_cons. cbn [on_event].
    rewrite (bind_run _ _ _ _ _ _ (handleReceiveMessage_accepted _ userId _ s Hb)).
    cbn [state fst snd]. rewrite IH. cbn [Screen.messages].
    rewrite <- app_assoc. reflexivity.
Qed.

(** C4 (amended): the timeline is never sorted; after a history load and
    any sequence of accepted message-received events it is the fetched
    history in the order the store returned it, followed by the received
    messages in the order they arrived. *)
Theorem timeline_keeps_arrival_order
    messagesEndpoint receiverId http senderId userId data ms s :
  load_succeeds messagesEndpoint receiverId http senderId data ->
  Forall (belongs receiverId) ms ->
  Screen.messages
    (state ((fetchMessages_resume messagesEndpoint receiverId http senderId ;;
             forEach (receiveMessage <$> ms) (on_event receiverId userId)) s))
  = data ++ ms.
Proof.
  intros Hok Hall.
  rewrite (bind_run _ _ _ _ _ _ (fetchMessages_resume_succeeds _ _ _ _ data s Hok)).
  cbn [state fst snd]. rewrite forEach_receive_accepted by assumption.
  reflexivity.
Qed.

Lemma timeline_keeps_arrival_order_witness :
  let m1 := Sample.message "m1" Sample.peer Sample.me "first" 10 "sent" in
  let m2 := Sample.message "m2" Sample.peer Sample.me "second" 20 "sent" in
  let m3 := Sample.message "m3" Sample.me Sample.peer "third" 30 "sent" in
  Screen.messages
    (state ((fetchMessages_resume "/api/messages" Sample.peer
               (Sample.store [m2]) Sample.me ;;
             forEach (receiveMessage <$> [m3; m1])
               (on_event Sample.peer Sample.me)) (Sample.screen [])))
  = [m2] ++ [m3; m1].
Proof.
  intros m1 m2 m3.
  apply (timeline_keeps_arrival_order "/api/messages" Sample.peer
           (Sample.store [m2]) Sample.me Sample.me [m2] [m3; m1] (Sample.screen [])).
  - apply sample_store_succeeds.
  - constructor; [right; reflexivity |].
    constructor; [left; reflexivity | constructor].
Defined.

(** ** C5: sending *)

Lemma trimStart_spec s :
  exists pre, s = pre ++ JS.trimStart s /\ blank pre
              /\ forall c, head (JS.trimStart s) = Some c -> JS.isStripped c = false.
Proof.
  induction s as [| c s (pre & Hs & Hpre & Hhd)]; cbn [JS.trimStart].
  - exists []. repeat split; [constructor | discriminate].
  - destruct (JS.isStripped c) eqn:E.
    + exists (c :: pre). cbn. rewrite <- Hs. repeat split; [constructor |]; assumption.
    + exists []. repeat split; [constructor |].
      cbn. intros c' [= <-]. exact E.
Qed.

Lemma trimStart_blank s : blank s -> JS.trimStart s = [].
Proof.
  induction 1 as [| c s Hc _ IH]; [reflexivity |]. cbn. rewrite Hc. exact IH.
Qed.

Lemma trimEnd_spec s :
  exists post, s = JS.trimEnd s ++ post /\ blank post
               /\ forall c, last (JS.trimEnd s) = Some c -> JS.isStripped c = false.
Proof.
  unfold JS.trimEnd. destruct (trimStart_spec (reverse s)) as (pre & Hs & Hpre & Hhd).
  exists (reverse pre). split; [| split].
  - rewrite <- reverse_app, <- Hs, reverse_involutive. reflexivity.
  - apply Forall_reverse. exact Hpre.
  - intros c. rewrite last_reverse. apply Hhd.
Qed.

(** [trim] removes a blank prefix and a blank suffix and leaves a string
    with no blank at either end. *)
Lemma trim_spec s :
  exists pre post, s = pre ++ JS.trim s ++ post /\ blank pre /\ blank post
                   /\ tight (JS.trim s).
Proof.
  unfold JS.trim.
  destruct (trimStart_spec s) as (pre & Hs & Hpre & Hhd).
  destruct (trimEnd_spec (JS.trimStart s)) as (post & Ht & Hpost & Hlast).
  exists pre, post. split; [| split; [| split; [| split]]]; try assumption.
  - rewrite <- Ht. exact Hs.
  - intros c Hc. apply Hhd. rewrite Ht.
    destruct (JS.trimEnd (JS.trimStart s)); [discriminate | exact Hc].
Qed.

(** The trimmed form is empty exactly for the blank strings. *)
Lemma trim_nil_iff s : JS.trim s = [] <-> blank s.
Proof.
  split.
  - intros Hnil. destruct (trim_spec s) as (pre & post & Hs & Hpre & Hpost & _).
    rewrite Hnil in Hs. rewrite Hs. apply Forall_app. split; assumption.
  - intros Hb. unfold JS.trim, JS.trimEnd. rewrite (trimStart_blank s Hb). reflexivity.
Qed.

(** C5: on a blank input [sendMessage] returns at once, emits nothing and
    changes nothing; on any other input it emits exactly one [sendMessage]
    event that carries the sender ([userId]), the receiver and the trimmed
    text, and nothing else. *)
Theorem sendMessage_emits_trimmed receiverId inputMessage userId s :
  let sent := sendMessage receiverId inputMessage userId s in
  completion sent = Normal tt
  /\ (JS.trim inputMessage = [] -> effects sent = [] /\ state sent = s)
  /\ (JS.trim inputMessage <> [] ->
      effects sent
      = [SocketEmit "sendMessage"
           (MessageData userId receiverId (JS.trim inputMessage))]).
Proof.
  intros sent. unfold sent, sendMessage.
  destruct (decide (JS.trim inputMessage = [])) as [Hnil | Hsome].
  - rewrite bool_decide_eq_true_2 by assumption. repeat split; congruence.
  - rewrite bool_decide_eq_false_2 by assumption. repeat split; congruence.
Qed.

(** The scenario of the specification: [send("")] and [send("   ")] emit
    nothing, [send(" hi ")] emits the text ["hi"]. *)
Example sendMessage_scenario :
  effects (sendMessage Sample.peer (js "") Sample.me (Sample.screen [])) = []
  /\ effects (sendMessage Sample.peer (js "   ") Sample.me (Sample.screen [])) = []
  /\ effects (sendMessage Sample.peer (js " hi ") Sample.me (Sample.screen []))
     = [SocketEmit "sendMessage" (MessageData Sample.me Sample.peer (js "hi"))].
Proof. repeat split; reflexivity. Qed.

(** ** C6: the read receipts of a history load *)






(** The same load, run: one receipt, for the unread message addressed to
    the session identity. *)
Example history_load_read_receipts_run :
  effects (fetchMessages_resume "/api/messages" Sample.peer
             (Sample.store
                [Sample.message "m1" Sample.peer Sample.me "hello" 10 "delivered";
                 Sample.message "m2" Sample.peer Sample.me "again" 20 "read";
                 Sample.message "m3" Sample.me Sample.peer "hi" 30 "sent"])
             Sample.me (Sample.screen []))
  = [SocketEmit "updateMessageStatus" (StatusUpdate "m1" "read"); ScrollToBottom].
Proof. reflexivity. Qed.

(** ** C7: a status update for an unknown identifier *)

(** C7: when no entry of the timeline carries the identifier, the status
    update leaves the whole state as it was and performs no effect. *)
Theorem status_update_absent_is_noop messageId status s :
  (forall msg, msg ∈ Screen.messages s -> Message._id msg <> messageId) ->
  handleMessageStatusUpdated messageId status s = (Normal tt, s, []).
Proof.
  intros Habsent. rewrite handleMessageStatusUpdated_run.
  destruct s as [timeline input user loading]. cbn in *.
  do 2 f_equal. f_equal.
  induction timeline as [| msg timeline IH]; [reflexivity |].
  rewrite fmap_cons.
  rewrite bool_decide_eq_false_2 by (apply Habsent; left).
  f_equal. apply IH. intros msg' Hin. apply Habsent. right. exact Hin.
Qed.

Lemma status_update_absent_is_noop_witness :
  let s := Sample.screen [Sample.message "m1" Sample.peer Sample.me "hello" 10 "sent"] in
  handleMessageStatusUpdated "m9" "read" s = (Normal tt, s, []).
Proof.
  intros s. apply (status_update_absent_is_noop "m9" "read" s).
  intros msg Hin. apply list_elem_of_In in Hin.
  destruct Hin as [<- | []]. discriminate.
Defined.

(** ** C8: which received messages are applied *)

(** C8: a received message is appended to the timeline if and only if its
    sender or its receiver is the peer of the open conversation; otherwise
    the handler leaves the state as it was, with the timeline at its
    length, and performs no effect. *)
Theorem receive_applies_iff_belongs receiverId userId message s :
  let received := handleReceiveMessage receiverId userId message s in
  (belongs receiverId message
   <-> Screen.messages (state received) = Screen.messages s ++ [message])
  /\ (~ belongs receiverId message ->
      state received = s
      /\ length (Screen.messages (state received)) = length (Screen.messages s)
      /\ effects received = []).
Proof.
  intros received. unfold received.
  destruct (decide (belongs receiverId message)) as [Hb | Hb].
  - rewrite handleReceiveMessage_accepted by assumption.
    split; [split; [reflexivity | intros _; exact Hb] | contradiction].
  - rewrite handleReceiveMessage_ignored by assumption.
    cbn [state effects fst snd]. split; [split; [contradiction |] | auto].
    intros Heq. apply (f_equal length) in Heq.
    rewrite length_app in Heq. cbn in Heq. lia.
Qed.

(** A message between the session identity and somebody else than the
    peer is ignored. *)
Example receive_from_stranger_ignored :
  handleReceiveMessage Sample.peer Sample.me
    (Sample.message "m7" Sample.stranger Sample.me "psst" 10 "sent")
    (Sample.screen [Sample.message "m1" Sample.peer Sample.me "hello" 5 "sent"])
  = (Normal tt,
     Sample.screen [Sample.message "m1" Sample.peer Sample.me "hello" 5 "sent"],
     []).
Proof. reflexivity. Qed.

(** ** C9: a history load that fails *)

(** A load that succeeds logs no error: the log is where the two differ. *)
Lemma successful_load_logs_nothing
    messagesEndpoint receiverId http senderId data s label error :
  load_succeeds messagesEndpoint receiverId http senderId data ->
  ConsoleError label error
    ∉ effects (fetchMessages_resume messagesEndpoint receiverId http senderId s).
Proof.
  intros Hok. rewrite (fetchMessages_resume_succeeds _ _ _ _ data s Hok).
  cbn [effects snd]. rewrite elem_of_app, list_elem_of_In, in_flat_map.
  intros [(message & _ & Hin) | Hin].
  - unfold markAsRead in Hin.
    destruct (_ && _); cbn in Hin; [destruct Hin as [Hin | []] |]; easy.
  - apply list_elem_of_singleton in Hin. discriminate.
Qed.

(** A refused load and a load that returns what the live events had built
    leave the same completion and the same state: the consumer of the
    screen cannot tell the failure. *)
Lemma failed_load_is_not_signalled :
  ~ failure_is_signalled "/api/messages" Sample.peer (Sample.store_refusing 500)
      Sample.me Sample.me
      [receiveMessage (Sample.message "m2" Sample.peer Sample.me "again" 20 "sent")]
      (Sample.screen []).
Proof.
  intros Hsignal.
  apply (Hsignal
           (Sample.store [Sample.message "m2" Sample.peer Sample.me "again" 20 "sent"])
           [Sample.message "m2" Sample.peer Sample.me "again" 20 "sent"]).
  - apply sample_store_succeeds.
  - reflexivity.
Qed.

(** C9 (amended): when the load fails (no token, transport error,
    non-success response or unreadable body) [fetchMessages] still
    completes normally; the timeline is the one the live events had built
    and [isLoading] is cleared.  The failure is reported by exactly one
    [console.error] that carries the error, and by nothing else: the state
    is the earlier state with [isLoading] cleared, the same state, with
    the same completion, that a successful load returning that timeline
    leaves. *)
Theorem failed_load_keeps_timeline
    messagesEndpoint receiverId http senderId userId live error s :
  load_fails messagesEndpoint receiverId http senderId error ->
  let before :=
    forEach live (on_event receiverId userId) (state (fetchMessages_call s)) in
  let after :=
    fetchMessages_with_live messagesEndpoint receiverId http senderId userId live s in
  completion after = Normal tt
  /\ Screen.messages (state after) = Screen.messages (state before)
  /\ Screen.isLoading (state after) = false
  /\ effects after
     = effects before ++ [ConsoleError "Error fetching messages:" error]
  /\ state after
     = Screen.mk (Screen.messages (state before)) (Screen.inputMessage (state before))
                 (Screen.userId (state before)) false
  /\ (forall succeeding,
        load_succeeds messagesEndpoint receiverId succeeding senderId
          (Screen.messages (state before)) ->
        let loaded :=
          fetchMessages_with_live messagesEndpoint receiverId succeeding senderId
            userId live s in
        completion loaded = completion after /\ state loaded = state after).
Proof.
  intros Hfail before after. unfold after.
  rewrite fetchMessages_with_live_run. fold before.
  rewrite (fetchMessages_resume_fails _ _ _ _ error _ Hfail).
  do 5 (split; [reflexivity |]).
  intros succeeding Hok. cbv zeta.
  rewrite fetchMessages_with_live_run. fold before.
  rewrite (fetchMessages_resume_succeeds _ _ _ _ _ _ Hok).
  split; reflexivity.
Qed.

Lemma failed_load_keeps_timeline_witness :
  let arrived := Sample.message "m2" Sample.peer Sample.me "again" 20 "sent" in
  let after :=
    fetchMessages_with_live "/api/messages" Sample.peer (Sample.store_refusing 500)
      Sample.me Sample.me [receiveMessage arrived] (Sample.screen []) in
  completion after = Normal tt
  /\ Screen.messages (state after) = [arrived]
  /\ Screen.isLoading (state after) = false
  /\ effects after
     = [SocketEmit "updateMessageStatus" (StatusUpdate "m2" "delivered");
        ScrollToBottom]
       ++ [ConsoleError "Error fetching messages:" (HttpError 500)]
  /\ state after = Screen.mk [arrived] [] Sample.me false
  /\ (forall succeeding,
        load_succeeds "/api/messages" Sample.peer succeeding Sample.me [arrived] ->
        let loaded :=
          fetchMessages_with_live "/api/messages" Sample.peer succeeding
            Sample.me Sample.me [receiveMessage arrived] (Sample.screen []) in
        completion loaded = completion after /\ state loaded = state after).
Proof.
  intros arrived.
  apply (failed_load_keeps_timeline "/api/messages" Sample.peer
           (Sample.store_refusing 500) Sample.me Sample.me
           [receiveMessage arrived] (HttpError 500) (Sample.screen [])).
  apply (server_error _ _ _ _ "token" (Response.mk false 500 (Normal [])));
    reflexivity.
Defined.

(** A transport failure is caught the same way. *)
Example unreachable_store_keeps_timeline :
  fetchMessages_with_live "/api/messages" Sample.peer Sample.store_unreachable
    Sample.me Sample.me []
    (Sample.screen [Sample.message "m1" Sample.peer Sample.me "hello" 5 "sent"])
  = (Normal tt,
     Sample.screen [Sample.message "m1" Sample.peer Sample.me "hello" 5 "sent"],
     [ConsoleError "Error fetching messages:" (Rejection "Network request failed")]).
Proof. reflexivity. Qed.

(** ** C10: what a status update leaves alone *)

(** C10: a status update keeps the length of the timeline and the order of
    its identifiers; at every position the entry is the old one when its
    identifier differs, and otherwise differs from the old one in its
    status at most.  The rest of the state is untouched and nothing is
    emitted. *)
Theorem status_update_frame messageId status s :
  let updated := handleMessageStatusUpdated messageId status s in
  let timeline := Screen.messages (state updated) in
  length timeline = length (Screen.messages s)
  /\ Message._id <$> timeline = Message._id <$> Screen.messages s
  /\ (forall i msg,
        Screen.messages s !! i = Some msg ->
        exists msg',
          timeline !! i = Some msg'
          /\ (Message._id msg <> messageId -> msg' = msg)
          /\ Message._id msg' = Message._id msg
          /\ Message.senderId msg' = Message.senderId msg
          /\ Message.receiverId msg' = Message.receiverId msg
          /\ Message.text msg' = Message.text msg
          /\ Message.createdAt msg' = Message.createdAt msg)
  /\ Screen.inputMessage (state updated) = Screen.inputMessage s
  /\ Screen.userId (state updated) = Screen.userId s
  /\ Screen.isLoading (state updated) = Screen.isLoading s
  /\ effects updated = [].
Proof.
  intros updated timeline. unfold timeline, updated.
  rewrite handleMessageStatusUpdated_run.
  cbn [state effects fst snd Screen.messages Screen.inputMessage Screen.userId
       Screen.isLoading].
  split; [apply length_fmap |].
  split.
  { rewrite <- list_fmap_compose. apply list_fmap_ext.
    intros _ msg _. cbn. destruct (bool_decide _); reflexivity. }
  split; [| auto].
  intros i msg Hi. rewrite list_lookup_fmap, Hi. cbn.
  eexists. split; [reflexivity |].
  destruct (decide (Message._id msg = messageId)) as [Hid | Hid].
  - rewrite bool_decide_eq_true_2 by assumption. repeat split. contradiction.
  - rewrite bool_decide_eq_false_2 by assumption. repeat split.
Qed.

(** An update of the second of three entries. *)
Example status_update_frame_run :
  let m1 := Sample.message "m1" Sample.peer Sample.me "one" 10 "read" in
  let m2 := Sample.message "m2" Sample.me Sample.peer "two" 20 "sent" in
  let m3 := Sample.message "m3" Sample.peer Sample.me "three" 30 "delivered" in
  handleMessageStatusUpdated "m2" "delivered" (Sample.screen [m1; m2; m3])
  = (Normal tt,
     Sample.screen [m1; Sample.message "m2" Sample.me Sample.peer "two" 20 "delivered"; m3],
     []).
Proof. reflexivity. Qed.

(** * Further properties of the component *)

(** ** The history load always settles *)

(** Whatever the store does, the awaited calls either all succeed or fail
    at one definite point. *)
Lemma load_outcome_total messagesEndpoint receiverId http senderId :
  (exists data, load_succeeds messagesEndpoint receiverId http senderId data)
  \/ (exists error, load_fails messagesEndpoint receiverId http senderId error).
Proof.
  destruct (Http.getToken http) as [token | error] eqn:Htoken;
    [| right; exists error; apply token_error; exact Htoken].
  destruct (Http.fetch http
              (messagesEndpoint +:+ "/" +:+ senderId +:+ "/" +:+ receiverId)
              ("Bearer " +:+ token)) as [response | error] eqn:Hfetch;
    [| right; exists error; eapply transport_error; eassumption].
  destruct (Response.ok response) eqn:Hok;
    [| right; eexists; eapply server_error; eassumption].
  destruct (Response.json response) as [data | error] eqn:Hjson.
  - left. exists data, token, response. auto.
  - right. exists error. eapply body_error; eassumption.
Qed.

(** X1: [fetchMessages] turns the spinner on before its first [await] and
    does nothing else until the awaited calls have settled; what remains
    is its resumption.  Once [getToken], [fetch] and [response.json()]
    have settled, each by resolving or by rejecting, it has completed
    normally with [isLoading] cleared and [userId] and the input
    untouched; the timeline is then the response body if every awaited
    call succeeded, and the old timeline, with one [console.error],
    otherwise.  A call that never settles is not covered: the code sets no
    timeout, and [isLoading] is then left as the call set it. *)
Theorem fetchMessages_always_settles messagesEndpoint receiverId http senderId s :
  let suspended := fetchMessages_call s in
  let loaded := fetchMessages messagesEndpoint receiverId http senderId s in
  suspended
  = (Normal tt,
     Screen.mk (Screen.messages s) (Screen.inputMessage s) (Screen.userId s) true,
     [])
  /\ loaded
     = fetchMessages_resume messagesEndpoint receiverId http senderId (state suspended)
  /\ completion loaded = Normal tt
  /\ Screen.isLoading (state loaded) = false
  /\ Screen.userId (state loaded) = Screen.userId s
  /\ Screen.inputMessage (state loaded) = Screen.inputMessage s
  /\ ((exists data,
         load_succeeds messagesEndpoint receiverId http senderId data
         /\ Screen.messages (state loaded) = data)
      \/ (exists error,
            load_fails messagesEndpoint receiverId http senderId error
            /\ Screen.messages (state loaded) = Screen.messages s
            /\ effects loaded = [ConsoleError "Error fetching messages:" error])).
Proof.
  intros suspended loaded. unfold loaded, suspended.
  split; [reflexivity |]. rewrite fetchMessages_split.
  rewrite (bind_run _ _ _ _ _ _ (fetchMessages_call_run s)).
  split.
  { cbn [state fst snd]. destruct (fetchMessages_resume _ _ _ _ _) as [[r s2] out2].
    reflexivity. }
  destruct (load_outcome_total messagesEndpoint receiverId http senderId)
    as [[data Hok] | [error Hfail]].
  - rewrite (fetchMessages_resume_succeeds _ _ _ _ data _ Hok).
    cbn. repeat split. left. exists data. auto.
  - rewrite (fetchMessages_resume_fails _ _ _ _ error _ Hfail).
    cbn. repeat split. right. exists error. auto.
Qed.

(** X2: on a screen whose timeline is empty, a load that fails leaves
    exactly the state that a successful load of an empty history leaves:
    nothing in the state records the failure. *)
Theorem failed_load_looks_like_empty_history
    messagesEndpoint receiverId failing empty senderId error s :
  load_fails messagesEndpoint receiverId failing senderId error ->
  load_succeeds messagesEndpoint receiverId empty senderId [] ->
  Screen.messages s = [] ->
  state (fetchMessages messagesEndpoint receiverId failing senderId s)
  = state (fetchMessages messagesEndpoint receiverId empty senderId s).
Proof.
  intros Hfail Hok Hnil. rewrite !fetchMessages_split.
  rewrite !(bind_run _ _ _ _ _ _ (fetchMessages_call_run s)).
  rewrite (fetchMessages_resume_fails _ _ _ _ error _ Hfail).
  rewrite (fetchMessages_resume_succeeds _ _ _ _ [] _ Hok).
  cbn. rewrite Hnil. reflexivity.
Qed.

Lemma failed_load_looks_like_empty_history_witness :
  state (fetchMessages "/api/messages" Sample.peer (Sample.store_refusing 503)
           Sample.me Screen.initial)
  = state (fetchMessages "/api/messages" Sample.peer (Sample.store [])
             Sample.me Screen.initial).
Proof.
  apply (failed_load_looks_like_empty_history "/api/messages" Sample.peer
           (Sample.store_refusing 503) (Sample.store []) Sample.me (HttpError 503)).
  - apply (server_error _ _ _ _ "token" (Response.mk false 503 (Normal [])));
      reflexivity.
  - apply sample_store_succeeds.
  - reflexivity.
Defined.

(** ** Delivered receipts *)

(** X3: [handleReceiveMessage] emits on the socket exactly when the message
    belongs to the open conversation and is addressed to the captured
    [userId], and then exactly one [updateMessageStatus] with status
    [delivered] for that message; a message of another conversation is
    never acknowledged, even when it is addressed to the user. *)
Theorem receive_delivered_receipt receiverId userId message s :
  let emitted :=
    List.filter is_emit (effects (handleReceiveMessage receiverId userId message s)) in
  (belongs receiverId message /\ User._id (Message.receiverId message) = userId ->
   emitted
   = [SocketEmit "updateMessageStatus" (StatusUpdate (Message._id message) "delivered")])
  /\ (~ (belongs receiverId message /\ User._id (Message.receiverId message) = userId) ->
      emitted = []).
Proof.
  intros emitted. unfold emitted.
  destruct (decide (belongs receiverId message)) as [Hb | Hb].
  - rewrite handleReceiveMessage_accepted by assumption. cbn [effects snd].
    destruct (decide (User._id (Message.receiverId message) = userId)) as [Hto | Hto].
    + rewrite (bool_decide_eq_true_2 _ Hto). split; [reflexivity |].
      intros Hnot. exfalso. apply Hnot. split; assumption.
    + rewrite (bool_decide_eq_false_2 _ Hto). split; [| reflexivity].
      intros [_ Hto']. contradiction.
  - rewrite handleReceiveMessage_ignored by assumption. split; [| reflexivity].
    intros [Hb' _]. contradiction.
Qed.

(** ** Status updates compose *)

Lemma status_update_then messageId1 status1 messageId2 status2 s :
  state ((handleMessageStatusUpdated messageId1 status1 ;;
          handleMessageStatusUpdated messageId2 status2) s)
  = Screen.mk
      ((fun msg =>
          let msg1 := if bool_decide (Message._id msg = messageId1)
                      then Message.with_status msg status1 else msg in
          if bool_decide (Message._id msg1 = messageId2)
          then Message.with_status msg1 status2 else msg1)
       <$> Screen.messages s)
      (Screen.inputMessage s) (Screen.userId s) (Screen.isLoading s).
Proof.
  rewrite (bind_run _ _ _ _ _ _ (handleMessageStatusUpdated_run messageId1 status1 s)).
  rewrite handleMessageStatusUpdated_run.
  cbn [state fst snd Screen.messages Screen.inputMessage Screen.userId Screen.isLoading].
  rewrite <- list_fmap_compose. reflexivity.
Qed.

(** X4: a status update is idempotent: delivering the same
    [messageStatusUpdated] event twice leaves the state that one delivery
    leaves. *)
Theorem status_update_idempotent messageId status s :
  state ((handleMessageStatusUpdated messageId status ;;
          handleMessageStatusUpdated messageId status) s)
  = state (handleMessageStatusUpdated messageId status s).
Proof.
  rewrite status_update_then, handleMessageStatusUpdated_run.
  cbn [state fst snd]. f_equal. apply list_fmap_ext. intros _ msg _. cbn.
  destruct (bool_decide (Message._id msg = messageId)) eqn:E; cbn; rewrite E;
    reflexivity.
Qed.

(** X5: for one identifier the last status update wins: an update followed
    by a second one for the same message leaves the state that the second
    alone leaves, so the result depends on the order of arrival and not on
    the statuses. *)
Theorem status_update_last_wins messageId first second s :
  state ((handleMessageStatusUpdated messageId first ;;
          handleMessageStatusUpdated messageId second) s)
  = state (handleMessageStatusUpdated messageId second s).
Proof.
  rewrite status_update_then, handleMessageStatusUpdated_run.
  cbn [state fst snd]. f_equal. apply list_fmap_ext. intros _ msg _. cbn.
  destruct (bool_decide (Message._id msg = messageId)) eqn:E; cbn; rewrite E;
    reflexivity.
Qed.

(** X6: status updates for different messages commute. *)
Theorem status_updates_commute messageId1 status1 messageId2 status2 s :
  messageId1 <> messageId2 ->
  state ((handleMessageStatusUpdated messageId1 status1 ;;
          handleMessageStatusUpdated messageId2 status2) s)
  = state ((handleMessageStatusUpdated messageId2 status2 ;;
            handleMessageStatusUpdated messageId1 status1) s).
Proof.
  intros Hne. rewrite !status_update_then. f_equal.
  apply list_fmap_ext. intros _ msg _. cbn.
  destruct (bool_decide (Message._id msg = messageId1)) eqn:E1;
    destruct (bool_decide (Message._id msg = messageId2)) eqn:E2;
    cbn; rewrite ?E1, ?E2; try reflexivity.
  apply bool_decide_eq_true in E1, E2. congruence.
Qed.

Lemma status_updates_commute_witness :
  let s := Sample.screen [Sample.message "m1" Sample.peer Sample.me "one" 10 "sent";
                          Sample.message "m2" Sample.me Sample.peer "two" 20 "sent"] in
  state ((handleMessageStatusUpdated "m1" "read" ;;
          handleMessageStatusUpdated "m2" "delivered") s)
  = state ((handleMessageStatusUpdated "m2" "delivered" ;;
            handleMessageStatusUpdated "m1" "read") s).
Proof.
  intros s. apply (status_updates_commute "m1" "read" "m2" "delivered" s).
  discriminate.
Defined.

(** ** What socket events keep *)

Lemma forEach_events_cons receiverId userId ev live s :
  forEach (ev :: live) (on_event receiverId userId) s
  = (Normal tt,
     state (forEach live (on_event receiverId userId)
              (state (on_event receiverId userId ev s))),
     effects (on_event receiverId userId ev s)
     ++ effects (forEach live (on_event receiverId userId)
                   (state (on_event receiverId userId ev s)))).
Proof.
  rewrite forEach_cons.
  destruct (on_event receiverId userId ev s) as [[r s1] out1] eqn:E.
  pose proof (on_event_returns receiverId userId ev s) as (Hr & _).
  rewrite E in Hr. cbn in Hr. subst r.
  rewrite (bind_run _ _ _ _ _ _ E). cbn [state effects fst snd].
  destruct (forEach_events_return receiverId userId live s1) as [Hret _].
  rewrite Hret. reflexivity.
Qed.

(** One event keeps every entry, in place, with every field but the
    status, and adds at most the received message at the end. *)
Lemma on_event_extends receiverId userId ev s :
  (fun msg => Message.with_status msg "")
    <$> Screen.messages (state (on_event receiverId userId ev s))
  = ((fun msg => Message.with_status msg "") <$> Screen.messages s)
    ++ match ev with
       | receiveMessage message =>
           if bool_decide (belongs receiverId message)
           then [Message.with_status message ""] else []
       | messageStatusUpdated _ _ => []
       end.
Proof.
  destruct ev as [message | messageId status]; cbn [on_event].
  - destruct (decide (belongs receiverId message)) as [Hb | Hb].
    + rewrite handleReceiveMessage_accepted, (bool_decide_eq_true_2 _ Hb) by assumption.
      cbn [state fst snd Screen.messages]. rewrite fmap_app. reflexivity.
    + rewrite handleReceiveMessage_ignored, (bool_decide_eq_false_2 _ Hb) by assumption.
      cbn [state fst snd]. rewrite app_nil_r. reflexivity.
  - rewrite handleMessageStatusUpdated_run. cbn [state fst snd Screen.messages].
    rewrite app_nil_r, <- list_fmap_compose. apply list_fmap_ext.
    intros _ msg _. cbn. destruct (bool_decide _); reflexivity.
Qed.

(** X7: socket events never remove, reorder or rewrite entries: after any
    sequence of events the old timeline, statuses aside, is a prefix of the
    new one. *)
Theorem events_extend_timeline receiverId userId live s :
  ((fun msg => Message.with_status msg "") <$> Screen.messages s)
  `prefix_of`
  ((fun msg => Message.with_status msg "")
     <$> Screen.messages (state (forEach live (on_event receiverId userId) s))).
Proof.
  revert s. induction live as [| ev live IH]; intros s; [reflexivity |].
  rewrite forEach_events_cons. cbn [state fst snd].
  transitivity ((fun msg => Message.with_status msg "")
                  <$> Screen.messages (state (on_event receiverId userId ev s)));
    [| apply IH].
  rewrite on_event_extends. apply prefix_app_r. reflexivity.
Qed.

(** X8: the socket handlers keep the timeline inside the conversation: if
    every entry has the peer as sender or receiver, so has every entry
    after any sequence of events. *)
Theorem events_keep_conversation receiverId userId live s :
  Forall (belongs receiverId) (Screen.messages s) ->
  Forall (belongs receiverId)
    (Screen.messages (state (forEach live (on_event receiverId userId) s))).
Proof.
  revert s. induction live as [| ev live IH]; intros s Hall; [exact Hall |].
  rewrite forEach_events_cons. cbn [state fst snd]. apply IH.
  destruct ev as [message | messageId status]; cbn [on_event].
  - destruct (decide (belongs receiverId message)) as [Hb | Hb].
    + rewrite handleReceiveMessage_accepted by assumption.
      cbn [state fst snd Screen.messages]. apply Forall_app. split; [exact Hall |].
      constructor; [exact Hb | constructor].
    + rewrite handleReceiveMessage_ignored by assumption. exact Hall.
  - rewrite handleMessageStatusUpdated_run. cbn [state fst snd Screen.messages].
    apply Forall_fmap. eapply Forall_impl; [exact Hall |].
    intros msg Hb. cbn. destruct (bool_decide _); exact Hb.
Qed.

Lemma events_keep_conversation_witness :
  Forall (belongs Sample.peer)
    (Screen.messages
       (state (forEach
                 [receiveMessage (Sample.message "m2" Sample.peer Sample.me "two" 20 "sent");
                  receiveMessage (Sample.message "m7" Sample.stranger Sample.me "psst" 25 "sent");
                  messageStatusUpdated "m1" "read"]
                 (on_event Sample.peer Sample.me)
                 (Sample.screen
                    [Sample.message "m1" Sample.me Sample.peer "one" 10 "sent"])))).
Proof.
  apply (events_keep_conversation Sample.peer Sample.me).
  constructor; [right; reflexivity | constructor].
Defined.

(** X9: the socket handlers never touch [isLoading], [userId] or the
    input, and all they do besides calling [scrollToBottom] is to
    acknowledge received messages: every effect of a sequence of events is
    a call of [scrollToBottom] or the [delivered] receipt of a message of
    the sequence that belongs to the conversation and is addressed to the
    captured [userId].  They never emit [sendMessage] and never log. *)
Theorem events_only_acknowledge receiverId userId live s :
  let handled := forEach live (on_event receiverId userId) s in
  Screen.isLoading (state handled) = Screen.isLoading s
  /\ Screen.userId (state handled) = Screen.userId s
  /\ Screen.inputMessage (state handled) = Screen.inputMessage s
  /\ Forall
       (fun e =>
          e = ScrollToBottom
          \/ exists message,
               receiveMessage message ∈ live
               /\ belongs receiverId message
               /\ User._id (Message.receiverId message) = userId
               /\ e = SocketEmit "updateMessageStatus"
                        (StatusUpdate (Message._id message) "delivered"))
       (effects handled).
Proof.
  cbv zeta. revert s. induction live as [| ev live IH]; intros s.
  - cbn. repeat split. constructor.
  - rewrite forEach_events_cons. cbn [state effects fst snd].
    destruct (IH (state (on_event receiverId userId ev s)))
      as (Hl & Hu & Hi & Hout).
    destruct (on_event_returns receiverId userId ev s) as (_ & Hl1 & Hu1 & Hi1).
    split; [congruence |]. split; [congruence |]. split; [congruence |].
    apply Forall_app. split.
    + destruct ev as [message | messageId status]; cbn [on_event].
      * destruct (decide (belongs receiverId message)) as [Hb | Hb].
        -- rewrite handleReceiveMessage_accepted by assumption. cbn [effects snd].
           apply Forall_app. split; [| constructor; [left; reflexivity | constructor]].
           destruct (decide (User._id (Message.receiverId message) = userId))
             as [Hto | Hto].
           ++ rewrite (bool_decide_eq_true_2 _ Hto).
              constructor; [| constructor]. right. exists message.
              split; [left |]; auto.
           ++ rewrite (bool_decide_eq_false_2 _ Hto). constructor.
        -- rewrite handleReceiveMessage_ignored by assumption. constructor.
      * rewrite handleMessageStatusUpdated_run. constructor.
    + eapply Forall_impl; [exact Hout |].
      intros e [-> | (message & Hin & Hrest)]; [left; reflexivity |].
      right. exists message. split; [right; exact Hin | exact Hrest].
Qed.

(** ** Sending *)

Lemma sendMessage_run receiverId inputMessage userId s :
  sendMessage receiverId inputMessage userId s
  = if bool_decide (JS.trim inputMessage = [])
    then (Normal tt, s, [])
    else (Normal tt,
          Screen.mk (Screen.messages s) [] (Screen.userId s) (Screen.isLoading s),
          [SocketEmit "sendMessage"
             (MessageData userId receiverId (JS.trim inputMessage))]).
Proof. unfold sendMessage. destruct (bool_decide _); reflexivity. Qed.

(** X10: [sendMessage] never touches the timeline (no message is inserted
    locally), [userId] or [isLoading]; it clears the input exactly when it
    emits, and leaves it as it is on a blank input. *)
Theorem sendMessage_frame receiverId inputMessage userId s :
  let sent := sendMessage receiverId inputMessage userId s in
  Screen.messages (state sent) = Screen.messages s
  /\ Screen.userId (state sent) = Screen.userId s
  /\ Screen.isLoading (state sent) = Screen.isLoading s
  /\ (JS.trim inputMessage = [] ->
      Screen.inputMessage (state sent) = Screen.inputMessage s)
  /\ (JS.trim inputMessage <> [] -> Screen.inputMessage (state sent) = []).
Proof.
  intros sent. unfold sent, sendMessage.
  destruct (decide (JS.trim inputMessage = [])) as [Hnil | Hsome].
  - rewrite bool_decide_eq_true_2 by assumption. repeat split. contradiction.
  - rewrite bool_decide_eq_false_2 by assumption. repeat split. contradiction.
Qed.

Lemma trimStart_tight t :
  (forall c, head t = Some c -> JS.isStripped c = false) -> JS.trimStart t = t.
Proof.
  destruct t as [| c t]; [reflexivity |]. intros Hhd. cbn.
  rewrite (Hhd c eq_refl). reflexivity.
Qed.

(** Trimming a string that has no blank at either end changes nothing. *)
Lemma trim_tight t : tight t -> JS.trim t = t.
Proof.
  intros [Hhd Hlast]. unfold JS.trim, JS.trimEnd.
  rewrite (trimStart_tight t Hhd), trimStart_tight, reverse_involutive;
    [reflexivity |].
  intros c. rewrite head_reverse. apply Hlast.
Qed.

Lemma trim_idempotent s : JS.trim (JS.trim s) = JS.trim s.
Proof.
  destruct (trim_spec s) as (_ & _ & _ & _ & _ & Htight).
  apply trim_tight, Htight.
Qed.

(** X11: whatever [sendMessage] emits is a [sendMessage] event from
    [userId] to the peer whose text is not empty, neither starts nor ends
    with a character that [trim] strips, is left unchanged by a further
    [trim], and is the input without a blank prefix and a blank suffix:
    inner white space is kept. *)
Theorem sent_text_is_trimmed receiverId inputMessage userId s e :
  e ∈ effects (sendMessage receiverId inputMessage userId s) ->
  exists text,
    e = SocketEmit "sendMessage" (MessageData userId receiverId text)
    /\ text <> []
    /\ tight text
    /\ JS.trim text = text
    /\ exists pre post,
         inputMessage = pre ++ text ++ post /\ blank pre /\ blank post.
Proof.
  unfold sendMessage.
  destruct (decide (JS.trim inputMessage = [])) as [Hnil | Hsome].
  - rewrite bool_decide_eq_true_2 by assumption. cbn. intros Hin.
    apply elem_of_nil in Hin. contradiction.
  - rewrite bool_decide_eq_false_2 by assumption. cbn. intros Hin.
    apply list_elem_of_singleton in Hin. subst e.
    exists (JS.trim inputMessage).
    destruct (trim_spec inputMessage) as (pre & post & Hs & Hpre & Hpost & Htight).
    split; [reflexivity |]. split; [exact Hsome |]. split; [exact Htight |].
    split; [apply trim_idempotent |]. exists pre, post. auto.
Qed.

Lemma sent_text_is_trimmed_witness :
  exists text,
    SocketEmit "sendMessage" (MessageData Sample.me Sample.peer (js "see you"))
    = SocketEmit "sendMessage" (MessageData Sample.me Sample.peer text)
    /\ text <> []
    /\ tight text
    /\ JS.trim text = text
    /\ exists pre post,
         js "  see you " = pre ++ text ++ post /\ blank pre /\ blank post.
Proof.
  apply (sent_text_is_trimmed Sample.peer (js "  see you ") Sample.me
           (Sample.screen [])).
  vm_compute. left.
Defined.

(** X12: pressing send a second time sends nothing: on the state a
    [sendMessage] leaves, a [sendMessage] over that state's input emits no
    event. *)
Theorem second_send_emits_nothing receiverId userId s :
  let sent := sendMessage receiverId (Screen.inputMessage s) userId s in
  effects (sendMessage receiverId (Screen.inputMessage (state sent)) userId (state sent))
  = [].
Proof.
  intros sent. unfold sent.
  rewrite (sendMessage_run receiverId (Screen.inputMessage s)).
  destruct (decide (JS.trim (Screen.inputMessage s) = [])) as [Hnil | Hsome].
  - rewrite bool_decide_eq_true_2 by assumption. cbn [state fst snd].
    rewrite sendMessage_run, bool_decide_eq_true_2 by assumption. reflexivity.
  - rewrite bool_decide_eq_false_2 by assumption. reflexivity.
Qed.

(** X13: the input bar offers the send button exactly when the trimmed
    input is not empty; pressing the button it offers emits exactly one
    [sendMessage] event with the trimmed text, and the bar rendered for the
    input left behind shows the media buttons again. *)
Theorem send_button_sends receiverId inputMessage userId :
  match InputBar.trailing (renderInputBar receiverId inputMessage userId) with
  | MediaButtons => JS.trim inputMessage = []
  | SendButton onPress =>
      JS.trim inputMessage <> []
      /\ forall s,
           effects (onPress s)
           = [SocketEmit "sendMessage"
                (MessageData userId receiverId (JS.trim inputMessage))]
           /\ InputBar.trailing
                (renderInputBar receiverId
                   (Screen.inputMessage (state (onPress s))) userId)
              = MediaButtons
  end.
Proof.
  unfold renderInputBar. cbn [InputBar.trailing].
  destruct (decide (JS.trim inputMessage = [])) as [Hnil | Hsome].
  - rewrite bool_decide_eq_true_2 by assumption. exact Hnil.
  - rewrite bool_decide_eq_false_2 by assumption. split; [exact Hsome |].
    intros s. rewrite sendMessage_run, bool_decide_eq_false_2 by assumption.
    split; reflexivity.
Qed.

(** ** Loading the identity *)

Lemma fetchMessages_returns messagesEndpoint receiverId http senderId s :
  completion (fetchMessages messagesEndpoint receiverId http senderId s) = Normal tt
  /\ Screen.isLoading
       (state (fetchMessages messagesEndpoint receiverId http senderId s)) = false
  /\ Screen.userId
       (state (fetchMessages messagesEndpoint receiverId http senderId s))
     = Screen.userId s.
Proof.
  rewrite fetchMessages_split.
  rewrite (bind_run _ _ _ _ _ _ (fetchMessages_call_run s)).
  destruct (load_outcome_total messagesEndpoint receiverId http senderId)
    as [[data Hok] | [error Hfail]].
  - rewrite (fetchMessages_resume_succeeds _ _ _ _ data _ Hok). auto.
  - rewrite (fetchMessages_resume_fails _ _ _ _ error _ Hfail). auto.
Qed.

(** With an identifier in storage, [loadUserData] is the history load for
    that identifier on the state that carries it. *)
Lemma loadUserData_stored messagesEndpoint receiverId getItem http id s :
  getItem "userID" = Normal (Some id) ->
  id <> "" ->
  loadUserData messagesEndpoint receiverId getItem http s
  = fetchMessages messagesEndpoint receiverId http id
      (Screen.mk (Screen.messages s) (Screen.inputMessage s) id (Screen.isLoading s)).
Proof.
  intros Hget Hid. unfold loadUserData, try_catch.
  unfold bind at 1, await at 1. rewrite Hget.
  rewrite (bool_decide_eq_false_2 _ Hid). cbn [negb].
  unfold bind at 1, setUserId at 1.
  destruct (fetchMessages_returns messagesEndpoint receiverId http id
              (Screen.mk (Screen.messages s) (Screen.inputMessage s) id
                         (Screen.isLoading s))) as (Hret & _).
  destruct (fetchMessages _ _ _ _ _) as [[r s2] out2]. cbn in Hret. subst r.
  reflexivity.
Qed.

(** X14: with no identifier in storage ([getItem] yields [null] or the
    empty string) [loadUserData] does nothing at all: no fetch, no effect,
    and the state, [isLoading] included, stays as it was. *)
Theorem loadUserData_without_identity messagesEndpoint receiverId getItem http s :
  getItem "userID" = Normal None \/ getItem "userID" = Normal (Some "") ->
  loadUserData messagesEndpoint receiverId getItem http s = (Normal tt, s, []).
Proof.
  intros [Hget | Hget]; unfold loadUserData, try_catch, bind, await;
    rewrite Hget; reflexivity.
Qed.

Lemma loadUserData_without_identity_witness :
  loadUserData "/api/messages" Sample.peer (fun _ => Normal None)
    (Sample.store [Sample.message "m1" Sample.peer Sample.me "hello" 10 "sent"])
    Screen.initial
  = (Normal tt, Screen.initial, []).
Proof.
  apply (loadUserData_without_identity "/api/messages" Sample.peer
           (fun _ => Normal None)).
  left. reflexivity.
Defined.

(** X15: when reading the storage fails, [loadUserData] catches the error:
    it completes normally, logs it once under its own label, starts no
    fetch and leaves the state as it was. *)
Theorem loadUserData_storage_failure messagesEndpoint receiverId getItem http error s :
  getItem "userID" = Throw error ->
  loadUserData messagesEndpoint receiverId getItem http s
  = (Normal tt, s, [ConsoleError "Error loading user data:" error]).
Proof.
  intros Hget. unfold loadUserData, try_catch, bind, await.
  rewrite Hget. reflexivity.
Qed.

Lemma loadUserData_storage_failure_witness :
  loadUserData "/api/messages" Sample.peer
    (fun _ => Throw (Rejection "storage unavailable")) (Sample.store [])
    Screen.initial
  = (Normal tt, Screen.initial,
     [ConsoleError "Error loading user data:" (Rejection "storage unavailable")]).
Proof.
  apply (loadUserData_storage_failure "/api/messages" Sample.peer
           (fun _ => Throw (Rejection "storage unavailable"))).
  reflexivity.
Defined.

(** X16: with an identifier in storage and a store that answers,
    [loadUserData] leaves the stored identifier as [userId], the fetched
    history as timeline and the spinner off, and it asks for the read
    receipts of the messages addressed to the stored identifier, whatever
    [userId] was before. *)
Theorem loadUserData_loads_history
    messagesEndpoint receiverId getItem http id data s :
  getItem "userID" = Normal (Some id) ->
  id <> "" ->
  load_succeeds messagesEndpoint receiverId http id data ->
  loadUserData messagesEndpoint receiverId getItem http s
  = (Normal tt,
     Screen.mk data (Screen.inputMessage s) id false,
     flat_map (fun message => effects (markAsRead id message s)) data
     ++ [ScrollToBottom]).
Proof.
  intros Hget Hid Hok. rewrite (loadUserData_stored _ _ _ _ id s Hget Hid).
  rewrite fetchMessages_split.
  rewrite (bind_run _ _ _ _ _ _ (fetchMessages_call_run _)).
  rewrite (fetchMessages_resume_succeeds _ _ _ _ data _ Hok).
  cbn. do 2 f_equal. apply flat_map_ext. intros message.
  apply markAsRead_effects.
Qed.

Lemma loadUserData_loads_history_witness :
  let unread := Sample.message "m1" Sample.peer Sample.me "hello" 10 "sent" in
  let mine := Sample.message "m2" Sample.me Sample.peer "hi" 20 "sent" in
  loadUserData "/api/messages" Sample.peer (fun _ => Normal (Some Sample.me))
    (Sample.store [unread; mine]) Screen.initial
  = (Normal tt,
     Screen.mk [unread; mine] [] Sample.me false,
     flat_map (fun message => effects (markAsRead Sample.me message Screen.initial))
       [unread; mine]
     ++ [ScrollToBottom]).
Proof.
  intros unread mine.
  apply (loadUserData_loads_history "/api/messages" Sample.peer
           (fun _ => Normal (Some Sample.me)) (Sample.store [unread; mine])
           Sample.me [unread; mine] Screen.initial).
  - reflexivity.
  - discriminate.
  - apply sample_store_succeeds.
Defined.

Lemma loadUserData_call_stored getItem id s :
  getItem "userID" = Normal (Some id) ->
  id <> "" ->
  loadUserData_call getItem s
  = (Normal tt,
     Screen.mk (Screen.messages s) (Screen.inputMessage s) id true,
     []).
Proof.
  intros Hget Hid. unfold loadUserData_call, try_catch.
  unfold bind at 1, await at 1. rewrite Hget.
  rewrite (bool_decide_eq_false_2 _ Hid). reflexivity.
Qed.

(** X17: [loadUserData] catches whatever is thrown.  Once the storage read
    has settled, by resolving or by rejecting, it resolves normally; with
    a non-empty identifier in storage it resolves, before the history load
    that it starts and does not await has settled, with that identifier as
    [userId] and with the spinner on.  What is left is the resumption of
    that load: once its awaited calls have settled too, whichever way, the
    whole has completed normally, with the identifier still as [userId]
    and with the spinner off, even when the history load failed.  Calls
    that never settle are not covered. *)
Theorem loadUserData_always_settles messagesEndpoint receiverId getItem http s :
  let resolved := loadUserData_call getItem s in
  let settled := loadUserData messagesEndpoint receiverId getItem http s in
  completion resolved = Normal tt
  /\ completion settled = Normal tt
  /\ (forall id,
        getItem "userID" = Normal (Some id) -> id <> "" ->
        Screen.userId (state resolved) = id
        /\ Screen.isLoading (state resolved) = true
        /\ settled
           = fetchMessages_resume messagesEndpoint receiverId http id (state resolved)
        /\ Screen.userId (state settled) = id
        /\ Screen.isLoading (state settled) = false).
Proof.
  intros resolved settled. unfold resolved, settled. split; [| split].
  - destruct (getItem "userID") as [[id |] | error] eqn:Hget.
    + destruct (decide (id = "")) as [-> | Hid].
      * unfold loadUserData_call, try_catch, bind, await. rewrite Hget. reflexivity.
      * rewrite (loadUserData_call_stored _ id s Hget Hid). reflexivity.
    + unfold loadUserData_call, try_catch, bind, await. rewrite Hget. reflexivity.
    + unfold loadUserData_call, try_catch, bind, await. rewrite Hget. reflexivity.
  - destruct (getItem "userID") as [[id |] | error] eqn:Hget.
    + destruct (decide (id = "")) as [-> | Hid].
      * unfold loadUserData, try_catch, bind, await. rewrite Hget. reflexivity.
      * rewrite (loadUserData_stored _ _ _ _ id s Hget Hid).
        apply fetchMessages_returns.
    + unfold loadUserData, try_catch, bind, await. rewrite Hget. reflexivity.
    + unfold loadUserData, try_catch, bind, await. rewrite Hget. reflexivity.
  - intros id Hget Hid.
    rewrite (loadUserData_call_stored _ id s Hget Hid).
    rewrite (loadUserData_stored _ _ _ _ id s Hget Hid).
    cbn [state fst snd Screen.userId Screen.isLoading].
    split; [reflexivity |]. split; [reflexivity |].
    destruct (fetchMessages_returns messagesEndpoint receiverId http id
                (Screen.mk (Screen.messages s) (Screen.inputMessage s) id
                           (Screen.isLoading s))) as (_ & Hl & Hu).
    split; [| split; assumption].
    rewrite fetchMessages_split.
    rewrite (bind_run _ _ _ _ _ _ (fetchMessages_call_run _)).
    cbn [state fst snd Screen.messages Screen.inputMessage Screen.userId].
    destruct (fetchMessages_resume _ _ _ _ _) as [[r s2] out2]. reflexivity.
Qed.

(** ** What the screen shows *)

Section Rendering.

Variable socketURL receiverId receiverName : string.
Variable receiverAvatar : option string.
Variable format : Z -> string -> string.

Let view := render socketURL receiverId receiverName receiverAvatar format.

(** X18: while the history is loading the screen shows the spinner,
    whatever the socket delivers: the events are applied to the state but
    no event ends the loading state. *)
Theorem spinner_hides_live_events userId live s :
  Screen.isLoading s = true ->
  view (state (forEach live (on_event receiverId userId) s)) = LoadingView.
Proof.
  intros Hloading. unfold view, render.
  destruct (forEach_events_return receiverId userId live s) as [_ Hl].
  rewrite Hl, Hloading. reflexivity.
Qed.

(** The row of a message does not depend on its status. *)
Lemma renderMessage_ignores_status userId msg status :
  renderMessage socketURL receiverAvatar format userId (Message.with_status msg status)
  = renderMessage socketURL receiverAvatar format userId msg.
Proof. reflexivity. Qed.

(** X19: the delivery status is never shown: a status update changes
    nothing of what the screen renders. *)
Theorem status_update_is_invisible messageId status s :
  view (state (handleMessageStatusUpdated messageId status s)) = view s.
Proof.
  unfold view, render. rewrite handleMessageStatusUpdated_run.
  cbn [state fst snd Screen.messages Screen.inputMessage Screen.userId
       Screen.isLoading].
  destruct (Screen.isLoading s); [reflexivity |]. f_equal.
  rewrite <- list_fmap_compose. apply list_fmap_ext. intros _ msg _. cbn.
  destruct (bool_decide (Message._id msg = messageId)); reflexivity.
Qed.

(** X20: once [fetchMessages] has settled, whatever its outcome, the
    screen no longer shows the spinner: it shows the conversation with one
    row per entry of the timeline, in order, keyed by the identifier. *)
Theorem settled_load_shows_conversation messagesEndpoint http senderId s :
  let loaded := state (fetchMessages messagesEndpoint receiverId http senderId s) in
  exists header rows inputBar,
    view loaded = ChatView header rows inputBar
    /\ rows.*1 = Message._id <$> Screen.messages loaded.
Proof.
  intros loaded. unfold view, render.
  destruct (fetchMessages_returns messagesEndpoint receiverId http senderId s)
    as (_ & Hl & _).
  fold loaded in Hl. rewrite Hl. do 3 eexists. split; [reflexivity |].
  rewrite <- list_fmap_compose. reflexivity.
Qed.

(** X21: after [loadUserData] has found an identifier and the store has
    answered, the screen shows one row per fetched message, in the fetched
    order and keyed by its identifier; a row is drawn as the user's own
    exactly when the sender is the stored identifier, carries an avatar
    exactly when it is not, and shows the message's text. *)
Theorem loaded_history_rows messagesEndpoint getItem http id data s :
  getItem "userID" = Normal (Some id) ->
  id <> "" ->
  load_succeeds messagesEndpoint receiverId http id data ->
  exists header rows inputBar,
    view (state (loadUserData messagesEndpoint receiverId getItem http s))
    = ChatView header rows inputBar
    /\ Forall2
         (fun item row =>
            row.1 = Message._id item
            /\ (Bubble.own row.2 = true <-> User._id (Message.senderId item) = id)
            /\ (Bubble.avatar row.2 = None <-> User._id (Message.senderId item) = id)
            /\ Bubble.text row.2 = Message.text item)
         data rows.
Proof.
  intros Hget Hid Hok. rewrite (loadUserData_stored _ _ _ _ id s Hget Hid).
  rewrite fetchMessages_split.
  rewrite (bind_run _ _ _ _ _ _ (fetchMessages_call_run _)).
  rewrite (fetchMessages_resume_succeeds _ _ _ _ data _ Hok).
  unfold view, render.
  cbn [state fst snd Screen.messages Screen.inputMessage Screen.userId
       Screen.isLoading].
  do 3 eexists. split; [reflexivity |].
  apply Forall2_fmap_r, Forall_Forall2_diag, Forall_forall.
  intros item _. unfold renderMessage. cbn.
  destruct (decide (User._id (Message.senderId item) = id)) as [Hown | Hother].
  - rewrite (bool_decide_eq_true_2 _ Hown). cbn. repeat split; auto.
  - rewrite (bool_decide_eq_false_2 _ Hother). cbn.
    repeat split; solve [reflexivity | discriminate | contradiction].
Qed.

End Rendering.

Lemma spinner_hides_live_events_witness :
  render "http://chat.example" Sample.peer "Peer" None (fun _ _ => "09:30")
    (state (forEach
              [receiveMessage (Sample.message "m1" Sample.peer Sample.me "hello" 10 "sent")]
              (on_event Sample.peer Sample.me) Screen.initial))
  = LoadingView.
Proof.
  apply (spinner_hides_live_events "http://chat.example" Sample.peer "Peer" None
           (fun _ _ => "09:30") Sample.me).
  reflexivity.
Defined.

Lemma loaded_history_rows_witness :
  let theirs := Sample.message "m1" Sample.peer Sample.me "hello" 10 "sent" in
  let mine := Sample.message "m2" Sample.me Sample.peer "hi" 20 "sent" in
  exists header rows inputBar,
    render "http://chat.example" Sample.peer "Peer" (Some "/avatars/peer.png")
      (fun _ _ => "09:30")
      (state (loadUserData "/api/messages" Sample.peer
                (fun _ => Normal (Some Sample.me)) (Sample.store [theirs; mine])
                Screen.initial))
    = ChatView header rows inputBar
    /\ Forall2
         (fun item row =>
            row.1 = Message._id item
            /\ (Bubble.own row.2 = true <-> User._id (Message.senderId item) = Sample.me)
            /\ (Bubble.avatar row.2 = None <-> User._id (Message.senderId item) = Sample.me)
            /\ Bubble.text row.2 = Message.text item)
         [theirs; mine] rows.
Proof.
  intros theirs mine.
  apply (loaded_history_rows "http://chat.example" Sample.peer "Peer"
           (Some "/avatars/peer.png") (fun _ _ => "09:30") "/api/messages"
           (fun _ => Normal (Some Sample.me)) (Sample.store [theirs; mine])
           Sample.me [theirs; mine] Screen.initial).
  - reflexivity.
  - discriminate.
  - apply sample_store_succeeds.
Defined.

(** The rows of the sample above, rendered: the peer's message comes with
    the peer's avatar, the user's own message with none. *)
Example loaded_history_rows_run :
  render "http://chat.example" Sample.peer "Peer" (Some "/avatars/peer.png")
    (fun _ _ => "09:30")
    (Screen.mk [Sample.message "m1" Sample.peer Sample.me "hello" 10 "sent";
                Sample.message "m2" Sample.me Sample.peer "hi" 20 "sent"]
               [] Sample.me false)
  = ChatView
      (Header.mk "http://chat.example/avatars/peer.png" "Peer" "Online")
      [("m1", Bubble.mk false (Some "http://chat.example/avatars/peer.png")
                (js "hello") "09:30");
       ("m2", Bubble.mk true None (js "hi") "09:30")]
      (renderInputBar Sample.peer [] Sample.me).
Proof. reflexivity. Qed.
